(** * Article ingestion and read API: a shallow embedding

    The development follows the Python sources:
    - [step1_ingest.py]: [fetch_article], [init_db], [save_article], [main];
    - [api.py], [api_server.py], [index.py]: [list_articles], [get_article]
      (the three files carry the same two functions);
    - [alert.py]: [get_last_alerted_id], [set_last_alerted_id],
      [check_for_new_articles].

    A Python [str] is a [string]; one [ascii] stands for one character.
    What lies outside the repository (the network, the HTML parser, the
    clock, the SQLite engine) is modelled as far as the sources rely on it. *)

From Stdlib Require Import List String Ascii ZArith Bool Arith Lia.
From Stdlib Require Import Sorting.Sorted Sorting.Permutation.
From Stdlib Require Import DecimalString DecimalZ.
Import ListNotations.
Open Scope string_scope.
Set Warnings "-register-all".

(** ** Exceptions and results *)

(** The exceptions the sources raise or let through. *)
Inductive exn : Type :=
| RequestException            (* requests.get: connection error, timeout *)
| HTTPError (status_code : Z) (* response.raise_for_status *)
| OperationalError (msg : string) (* sqlite3 *)
| OverflowError (* sqlite3: a parameter outside the 64-bit integers *)
| HTTPException (status_code : Z) (detail : string). (* fastapi *)

Inductive result (A : Type) : Type :=
| Ok (a : A)
| Raise (e : exn).
Arguments Ok {A} a.
Arguments Raise {A} e.

Definition bind {A B} (m : result A) (k : A -> result B) : result B :=
  match m with
  | Ok a => k a
  | Raise e => Raise e
  end.

Notation "x <- m ;; k" := (bind m (fun x => k))
  (at level 61, m at next level, right associativity).
Notation "' p <- m ;; k" := (bind m (fun p => k))
  (at level 61, p pattern, m at next level, right associativity).

Definition is_ok {A} (m : result A) : bool :=
  match m with Ok _ => true | Raise _ => false end.

(** ** Python strings *)

Module Str.

(** [str.isspace] on one character, for the code points below 256. *)
Definition isspace (c : ascii) : bool :=
  let n := nat_of_ascii c in
  (((9 <=? n) && (n <=? 13)) || ((28 <=? n) && (n <=? 32))
   || (n =? 133) || (n =? 160))%nat.

Fixpoint lstrip (s : string) : string :=
  match s with
  | EmptyString => EmptyString
  | String c s' => if isspace c then lstrip s' else s
  end.

(** [rstrip] keeps a character when it is not a space or when something
    is left after it. *)
Fixpoint rstrip (s : string) : string :=
  match s with
  | EmptyString => EmptyString
  | String c s' =>
      match rstrip s' with
      | EmptyString => if isspace c then EmptyString else String c EmptyString
      | r => String c r
      end
  end.

(** [s.strip()] *)
Definition strip (s : string) : string := rstrip (lstrip s).

(** [len(s)] *)
Definition len (s : string) : nat := String.length s.

(** [s[:n]] *)
Fixpoint prefix (n : nat) (s : string) : string :=
  match n, s with
  | S n', String c s' => String c (prefix n' s')
  | _, _ => EmptyString
  end.

(** Truth value of a string: non-empty. *)
Definition truthy (s : string) : bool :=
  match s with EmptyString => false | _ => true end.

Fixpoint all_space (s : string) : bool :=
  match s with
  | EmptyString => true
  | String c s' => isspace c && all_space s'
  end.

Definition starts_with_space (s : string) : bool :=
  match s with
  | EmptyString => false
  | String c _ => isspace c
  end.

Fixpoint ends_with_space (s : string) : bool :=
  match s with
  | EmptyString => false
  | String c EmptyString => isspace c
  | String _ s' => ends_with_space s'
  end.

(** [t] is [s] without its surrounding whitespace. *)
Definition trimmed_of (s t : string) : Prop :=
  exists l r, s = l ++ t ++ r
    /\ all_space l = true /\ all_space r = true
    /\ starts_with_space t = false /\ ends_with_space t = false.

End Str.

(** ** The parsed document (BeautifulSoup's object model) *)

Module Soup.

(** A page element: a text string, a string that is not part of the text
    (comment, doctype, ...), or a tag with its attribute dictionary and
    its children. *)
Inductive node : Type :=
| NavigableString (s : string)
| Comment (s : string)
| Tag (name : string) (attrs : list (string * string)) (contents : list node).

(** The [BeautifulSoup] object: the top-level elements. *)
Definition soup := list node.

(** All elements below a node, in document order. *)
Fixpoint descendants (n : node) : list node :=
  match n with
  | Tag _ _ cs => flat_map (fun c => c :: descendants c) cs
  | _ => []
  end.

Definition soup_descendants (d : soup) : list node :=
  flat_map (fun c => c :: descendants c) d.

Definition is_tag_named (nm : string) (n : node) : bool :=
  match n with
  | Tag name _ _ => String.eqb name nm
  | _ => false
  end.

(** [soup.find_all(nm)] *)
Definition find_all (d : soup) (nm : string) : list node :=
  filter (is_tag_named nm) (soup_descendants d).

(** [soup.find(nm)]: the first element [find_all] gives, or [None]. *)
Definition find (d : soup) (nm : string) : option node :=
  List.find (is_tag_named nm) (soup_descendants d).

(** [tag.text]: the text strings below the tag, concatenated. *)
Fixpoint text (n : node) : string :=
  match n with
  | NavigableString s => s
  | Comment _ => ""
  | Tag _ _ cs => fold_right (fun c acc => text c ++ acc) "" cs
  end.

Fixpoint dict_get (attrs : list (string * string)) (key : string)
  : option string :=
  match attrs with
  | [] => None
  | (k, v) :: rest => if String.eqb k key then Some v else dict_get rest key
  end.

(** [tag.get(key)] *)
Definition get (n : node) (key : string) : option string :=
  match n with
  | Tag _ attrs _ => dict_get attrs key
  | _ => None
  end.

End Soup.

(** ** The clock *)

Module Clock.

(** A [datetime] value, as [datetime.utcnow()] returns it; the printed
    forms below are those of the four-digit years the clock gives. *)
Record datetime : Type := mkDatetime {
  year : nat; month : nat; day : nat;
  hour : nat; minute : nat; second : nat
}.

Definition digit (n : nat) : ascii := ascii_of_nat (48 + n mod 10).

Definition pad2 (n : nat) : string :=
  String (digit (n / 10)) (String (digit n) "").

Definition pad4 (n : nat) : string :=
  String (digit (n / 1000)) (String (digit (n / 100)) (pad2 n)).

(** [t.strftime("%Y-%m-%d")] *)
Definition strftime_Ymd (t : datetime) : string :=
  pad4 (year t) ++ "-" ++ pad2 (month t) ++ "-" ++ pad2 (day t).

(** [t.strftime("%Y-%m-%d %H:%M:%S")] *)
Definition strftime_YmdHMS (t : datetime) : string :=
  strftime_Ymd t ++ " " ++ pad2 (hour t) ++ ":" ++ pad2 (minute t)
    ++ ":" ++ pad2 (second t).

Definition is_digit (c : ascii) : bool :=
  let n := nat_of_ascii c in ((48 <=? n) && (n <=? 57))%nat.

(** The shape [YYYY-MM-DD]: ten characters, digits around two dashes. *)
Definition is_Ymd_form (s : string) : bool :=
  match list_ascii_of_string s with
  | [y1; y2; y3; y4; d1; m1; m2; d2; a1; a2] =>
      forallb is_digit [y1; y2; y3; y4; m1; m2; a1; a2]
      && Ascii.eqb d1 "-" && Ascii.eqb d2 "-"
  | _ => false
  end.

End Clock.

(** ** The SQLite database file [data.db] *)

Module Sqlite.

(** A row of [articles]:
    [(id, url, title, publication_date, fetched_at)]. *)
Definition row : Type := (Z * string * string * string * string)%type.

Definition row_id (r : row) : Z :=
  let '(i, _, _, _, _) := r in i.
Definition row_url (r : row) : string :=
  let '(_, u, _, _, _) := r in u.
Definition row_title (r : row) : string :=
  let '(_, _, t, _, _) := r in t.
Definition row_publication_date (r : row) : string :=
  let '(_, _, _, p, _) := r in p.
Definition row_fetched_at (r : row) : string :=
  let '(_, _, _, _, f) := r in f.

(** The article store: the rows of the [articles] table in insertion
    order, and the table's entry in [sqlite_sequence] (the largest rowid
    the engine has drawn for it; 0 before the first). *)
Record store : Type := mkStore {
  rows : list row;
  sqlite_sequence : Z
}.

(** The database file: [None] while it holds no [articles] table (a file
    that does not exist yet is created empty by [sqlite3.connect]). *)
Definition database : Type := option store.

Definition empty_store : store := mkStore [] 0.

(** The records a database holds. *)
Definition records (db : database) : list row :=
  match db with
  | Some s => rows s
  | None => []
  end.

(** [CREATE TABLE IF NOT EXISTS articles (...)] *)
Definition create_table_if_not_exists (db : database) : database :=
  match db with
  | Some s => Some s
  | None => Some empty_store
  end.

Definition MAX_ROWID : Z := 9223372036854775807.

Definition MIN_ROWID : Z := (- 9223372036854775808)%Z.

Fixpoint max_rowid (rs : list row) : option Z :=
  match rs with
  | [] => None
  | r :: rs' =>
      match max_rowid rs' with
      | None => Some (row_id r)
      | Some m => Some (Z.max (row_id r) m)
      end
  end.

(** The rowid an [INTEGER PRIMARY KEY AUTOINCREMENT] table draws for an
    [INSERT] that names no id: one more than the largest rowid in the
    table and than the [sqlite_sequence] entry; the statement fails when
    either has reached the largest 64-bit rowid. *)
Definition new_rowid (s : store) : result Z :=
  let v := match max_rowid (rows s) with
           | None => Some 1%Z
           | Some m => if (m =? MAX_ROWID)%Z then None else Some (m + 1)%Z
           end in
  match v with
  | None => Raise (OperationalError "database or disk is full")
  | Some v =>
      if (sqlite_sequence s =? MAX_ROWID)%Z
      then Raise (OperationalError "database or disk is full")
      else Ok (Z.max v (sqlite_sequence s + 1))
  end.

(** [ON CONFLICT(url) DO UPDATE SET title=excluded.title, ...]: the row
    that holds [u] gets the three new values and keeps its id and its
    place; [None] when no row holds [u]. *)
Fixpoint update_on_conflict (u t p f : string) (rs : list row)
  : option (list row) :=
  match rs with
  | [] => None
  | r :: rs' =>
      if String.eqb (row_url r) u
      then Some ((row_id r, u, t, p, f) :: rs')
      else option_map (cons r) (update_on_conflict u t p f rs')
  end.

(** [INSERT INTO articles (url, title, publication_date, fetched_at)
     VALUES (?, ?, ?, ?) ON CONFLICT(url) DO UPDATE SET ...].
    The engine draws the rowid before it checks the [UNIQUE] constraint
    on [url], so the drawn value is recorded in [sqlite_sequence] on both
    paths. *)
Definition insert_on_conflict_update (u t p f : string) (db : database)
  : result database :=
  match db with
  | None => Raise (OperationalError "no such table: articles")
  | Some s =>
      v <- new_rowid s ;;
      match update_on_conflict u t p f (rows s) with
      | Some rs' => Ok (Some (mkStore rs' v))
      | None => Ok (Some (mkStore (rows s ++ [(v, u, t, p, f)]) v))
      end
  end.

Fixpoint insert_desc (r : row) (l : list row) : list row :=
  match l with
  | [] => [r]
  | x :: xs =>
      if (row_id x <=? row_id r)%Z then r :: l else x :: insert_desc r xs
  end.

(** [ORDER BY id DESC] *)
Definition order_by_id_desc (rs : list row) : list row :=
  fold_right insert_desc [] rs.

(** [SELECT id, url, title, publication_date, fetched_at FROM articles
     ORDER BY id DESC], then [fetchall()]. *)
Definition select_all_desc (db : database) : result (list row) :=
  match db with
  | None => Raise (OperationalError "no such table: articles")
  | Some s => Ok (order_by_id_desc (rows s))
  end.

(** [SELECT ... FROM articles WHERE id=?] with [i] for the parameter, then
    [fetchone()].  The statement is compiled before the parameter is bound:
    a missing table is reported first, then an integer that does not fit
    64 bits. *)
Definition select_by_id (db : database) (i : Z) : result (option row) :=
  match db with
  | None => Raise (OperationalError "no such table: articles")
  | Some s =>
      if ((MIN_ROWID <=? i) && (i <=? MAX_ROWID))%Z
      then Ok (List.find (fun r => (row_id r =? i)%Z) (rows s))
      else Raise OverflowError
  end.

End Sqlite.

(** ** [step1_ingest.py] *)

Module Ingest.
Import Sqlite.

Definition ARTICLE_URL : string :=
  "https://www.caisgroup.com/articles/what-are-contingent-yield-notes".

(** What [requests.get(url, timeout=30)] meets: no usable answer (the
    call raises), or a response with its status code and its text. *)
Inductive reply : Type :=
| NoReply
| Response (status_code : Z) (text : string).

(** The outside world during one run of the script: the network, the
    HTML parser behind [BeautifulSoup(text, "html.parser")], and the two
    readings of the clock ([fetch_article] and [save_article]). *)
Record env : Type := mkEnv {
  network : string -> reply;
  html_parser : string -> Soup.soup;
  utcnow_fetch : Clock.datetime;
  utcnow_save : Clock.datetime
}.

Definition requests_get (w : env) (url : string) : result (Z * string) :=
  match network w url with
  | NoReply => Raise RequestException
  | Response status_code text => Ok (status_code, text)
  end.

(** [response.raise_for_status()] *)
Definition raise_for_status (status_code : Z) : result unit :=
  if ((400 <=? status_code) && (status_code <? 600))%Z
  then Raise (HTTPError status_code)
  else Ok tt.

(** [title_tag.text.strip() if title_tag else url]; a tag is always
    true. *)
Definition title_of (title_tag : option Soup.node) (url : string)
  : string :=
  match title_tag with
  | Some tag => Str.strip (Soup.text tag)
  | None => url
  end.

(** The loop over [soup.find_all("time")]: [date_str] is [None] until a
    [datetime] attribute passes the test, then the loop breaks. *)
Fixpoint scan_times (metas : list Soup.node) : option string :=
  match metas with
  | [] => None
  | meta :: rest =>
      match Soup.get meta "datetime" with
      | Some datetime_attr =>
          if Str.truthy datetime_attr && (10 <=? Str.len datetime_attr)%nat
          then Some (Str.prefix 10 datetime_attr)
          else scan_times rest
      | None => scan_times rest
      end
  end.

(** [if not date_str: date_str = datetime.utcnow().strftime("%Y-%m-%d")] *)
Definition date_or_today (date_str : option string)
    (now : Clock.datetime) : string :=
  match date_str with
  | Some d => if Str.truthy d then d else Clock.strftime_Ymd now
  | None => Clock.strftime_Ymd now
  end.

Definition fetch_article (w : env) (url : string)
  : result (string * string) :=
  '(status_code, text) <- requests_get w url ;;
  _ <- raise_for_status status_code ;;
  let soup := html_parser w text in
  let title_tag := Soup.find soup "title" in
  let title := title_of title_tag url in
  let date_str := scan_times (Soup.find_all soup "time") in
  let date_str := date_or_today date_str (utcnow_fetch w) in
  Ok (title, date_str).

Definition init_db (db : database) : database :=
  create_table_if_not_exists db.

Definition save_article (w : env) (conn : database)
    (url title pub_date : string) : result database :=
  let fetched_at := Clock.strftime_YmdHMS (utcnow_save w) in
  insert_on_conflict_update url title pub_date fetched_at conn.

(** The body of [main] for any url in the place of [ARTICLE_URL]: the
    database file after the run, and the line printed or the exception
    that ended the run. *)
Definition ingest (w : env) (url : string) (db : database)
  : database * result string :=
  let conn := init_db db in
  match fetch_article w url with
  | Raise e => (conn, Raise e)
  | Ok (title, pub_date) =>
      match save_article w conn url title pub_date with
      | Raise e => (conn, Raise e)
      | Ok conn' =>
          (conn', Ok ("Fetched '" ++ title ++ "' published " ++ pub_date
                        ++ " and stored in database."))
      end
  end.

Definition main (w : env) (db : database) : database * result string :=
  ingest w ARTICLE_URL db.

(** A sequence of runs, each in its own world. *)
Fixpoint run (calls : list (env * string)) (db : database) : database :=
  match calls with
  | [] => db
  | (w, url) :: rest => run rest (fst (ingest w url db))
  end.

(** The urls of the runs that ended without an exception. *)
Fixpoint ingested (calls : list (env * string)) (db : database)
  : list string :=
  match calls with
  | [] => []
  | (w, url) :: rest =>
      let '(db', r) := ingest w url db in
      if is_ok r then url :: ingested rest db' else ingested rest db'
  end.

End Ingest.

(** ** [api.py], [api_server.py], [index.py] *)

Module Api.
Import Sqlite.

Record Article : Type := mkArticle {
  id : Z;
  url : string;
  title : string;
  publication_date : string;
  fetched_at : string
}.

(** [Article(id=row[0], url=row[1], title=row[2],
             publication_date=row[3], fetched_at=row[4])] *)
Definition Article_of_row (r : row) : Article :=
  mkArticle (row_id r) (row_url r) (row_title r)
            (row_publication_date r) (row_fetched_at r).

(** [sqlite3.connect(DB_PATH)]: a connection to the database file. *)
Definition get_db_connection (db : database) : database := db.

Definition list_articles (db : database) : result (list Article) :=
  let conn := get_db_connection db in
  rows <- select_all_desc conn ;;
  Ok (map Article_of_row rows).

Definition get_article (db : database) (article_id : Z) : result Article :=
  let conn := get_db_connection db in
  row <- select_by_id conn article_id ;;
  match row with
  | None => Raise (HTTPException 404 "Article not found")
  | Some r => Ok (Article_of_row r)
  end.

End Api.

(** ** [alert.py] *)

Module Alert.
Import Sqlite.

(** [alert_state.txt]: [None] while the file does not exist. *)
Definition state_file : Type := option string.

Definition digit_of (c : ascii) : option (Decimal.uint -> Decimal.uint) :=
  if Ascii.eqb c "0" then Some Decimal.D0
  else if Ascii.eqb c "1" then Some Decimal.D1
  else if Ascii.eqb c "2" then Some Decimal.D2
  else if Ascii.eqb c "3" then Some Decimal.D3
  else if Ascii.eqb c "4" then Some Decimal.D4
  else if Ascii.eqb c "5" then Some Decimal.D5
  else if Ascii.eqb c "6" then Some Decimal.D6
  else if Ascii.eqb c "7" then Some Decimal.D7
  else if Ascii.eqb c "8" then Some Decimal.D8
  else if Ascii.eqb c "9" then Some Decimal.D9
  else None.

(** The digits of an integer literal: at least one digit, and single
    underscores only between two digits. *)
Fixpoint int_digits (s : string) : option Decimal.uint :=
  match s with
  | EmptyString => None
  | String c rest =>
      match digit_of c with
      | None => None
      | Some d =>
          match rest with
          | EmptyString => Some (d Decimal.Nil)
          | String c' rest' =>
              if Ascii.eqb c' "_"
              then option_map d (int_digits rest')
              else option_map d (int_digits rest)
          end
      end
  end.

(** The interpreter's default limit on the number of digits of a string
    that [int] converts; underscores and the sign do not count. *)
Definition int_max_str_digits : nat := 4300.

(** The value of the digits, [None] when there are more than the limit
    allows. *)
Definition digits_value (s : string) : option Z :=
  match int_digits s with
  | Some d =>
      if (Decimal.nb_digits d <=? int_max_str_digits)%nat
      then Some (Z.of_uint d)
      else None
  | None => None
  end.

(** [int(s)] on a string, [None] for [ValueError]: whitespace around, an
    optional sign, then the digits. *)
Definition int (s : string) : option Z :=
  match Str.strip s with
  | EmptyString => None
  | String c rest =>
      if Ascii.eqb c "-"
      then option_map Z.opp (digits_value rest)
      else if Ascii.eqb c "+"
      then digits_value rest
      else digits_value (String c rest)
  end.

(** [str(n)] on an integer. *)
Definition str (n : Z) : string := NilZero.string_of_int (Z.to_int n).

Definition get_last_alerted_id (f : state_file) : Z :=
  match f with
  | Some text =>
      match int (Str.strip text) with
      | Some n => n
      | None => 0%Z
      end
  | None => 0%Z
  end.

Definition set_last_alerted_id (article_id : Z) : state_file :=
  Some (str article_id).

Fixpoint insert_asc (r : row) (l : list row) : list row :=
  match l with
  | [] => [r]
  | x :: xs =>
      if (row_id r <=? row_id x)%Z then r :: l else x :: insert_asc r xs
  end.

(** [ORDER BY id] *)
Definition order_by_id (rs : list row) : list row :=
  fold_right insert_asc [] rs.

(** How a run of the script ends: with the lines it printed, or with an
    exception of the database. *)
Inductive outcome : Type :=
| Printed (lines : list string)
| Raised (e : exn).

(** [SELECT id, title FROM articles WHERE id > ? ORDER BY id] with
    [last_id] for the parameter, then [fetchall()]. *)
Definition select_new (db : database) (last_id : Z)
  : outcome + list (Z * string) :=
  match db with
  | None => inl (Raised (OperationalError "no such table: articles"))
  | Some s =>
      if ((MIN_ROWID <=? last_id) && (last_id <=? MAX_ROWID))%Z
      then inr (map (fun r => (row_id r, row_title r))
                    (order_by_id
                       (filter (fun r => (last_id <? row_id r)%Z) (rows s))))
      else inl (Raised OverflowError)
  end.

(** [f"ALERT: New article ingested: {title} (ID {article_id})"] *)
Definition alert_line (row : Z * string) : string :=
  let '(article_id, title) := row in
  "ALERT: New article ingested: " ++ title ++ " (ID " ++ str article_id ++ ")".

(** The [for] loop: one line and one write of the state file per row. *)
Fixpoint alert_loop (rows : list (Z * string)) (f : state_file)
    (out : list string) : state_file * list string :=
  match rows with
  | [] => (f, out)
  | row :: rest =>
      alert_loop rest (set_last_alerted_id (fst row))
                 (out ++ [alert_line row])%list
  end.

(** The state file after the run, and how the run ended. *)
Definition check_for_new_articles (db : database) (f : state_file)
  : state_file * outcome :=
  let last_id := get_last_alerted_id f in
  match select_new db last_id with
  | inl e => (f, e)
  | inr rows =>
      match rows with
      | [] => (f, Printed ["No new articles since last check."])
      | _ :: _ =>
          let '(f', out) := alert_loop rows f [] in (f', Printed out)
      end
  end.

(** The ingestion script and the alert script run one after the other, in
    any order, on the same database file. *)
Inductive op : Type :=
| RunIngest (w : Ingest.env) (url : string)
| RunAlert.

Record files : Type := mkFiles {
  data_db : database;
  alert_state : state_file
}.

Definition step (o : op) (fs : files) : files :=
  match o with
  | RunIngest w url =>
      mkFiles (fst (Ingest.ingest w url (data_db fs))) (alert_state fs)
  | RunAlert =>
      mkFiles (data_db fs)
              (fst (check_for_new_articles (data_db fs) (alert_state fs)))
  end.

(** The rows a run of the alert script reports. *)
Definition reported (fs : files) : list (Z * string) :=
  match select_new (data_db fs) (get_last_alerted_id (alert_state fs)) with
  | inl _ => []
  | inr rows => rows
  end.

Fixpoint run_ops (ops : list op) (fs : files) : files :=
  match ops with
  | [] => fs
  | o :: rest => run_ops rest (step o fs)
  end.

(** All the rows reported along a sequence of runs, in order. *)
Fixpoint all_reported (ops : list op) (fs : files) : list (Z * string) :=
  match ops with
  | [] => []
  | RunAlert :: rest => (reported fs ++ all_reported rest (step RunAlert fs))%list
  | o :: rest => all_reported rest (step o fs)
  end.

End Alert.

(** ** The extractor as the specification words it *)

(** The [datetime] attribute of an element; a missing one has no
    characters. *)
Definition datetime_attr (n : Soup.node) : string :=
  match Soup.get n "datetime" with
  | Some a => a
  | None => ""
  end.

(** A time element qualifies when its [datetime] attribute has at least ten
    characters. *)
Definition qualifies (n : Soup.node) : bool :=
  (10 <=? Str.len (datetime_attr n))%nat.

(** The first ten characters of the [datetime] attribute of the first time
    element that qualifies, or else today's date. *)
Definition spec_publication_date (d : Soup.soup) (today : string) : string :=
  match List.find qualifies (Soup.find_all d "time") with
  | Some t => Str.prefix 10 (datetime_attr t)
  | None => today
  end.

(** The first element of a document with a given tag name, in document
    order: nothing before it in the document carries the name. *)
Definition first_named (nm : string) (d : Soup.soup) (t : Soup.node) : Prop :=
  exists pre post,
    Soup.soup_descendants d = (pre ++ t :: post)%list
    /\ Soup.is_tag_named nm t = true
    /\ forallb (fun n => negb (Soup.is_tag_named nm n)) pre = true.

Definition none_named (nm : string) (d : Soup.soup) : Prop :=
  forall n, In n (Soup.soup_descendants d) -> Soup.is_tag_named nm n = false.

(** The urls a database holds, in the order of its rows. *)
Definition urls (db : Sqlite.database) : list string :=
  map Sqlite.row_url (Sqlite.records db).

(** The (id, url) pairs a database holds, in the order of its rows. *)
Definition id_url_pairs (db : Sqlite.database) : list (Z * string) :=
  map (fun r => (Sqlite.row_id r, Sqlite.row_url r)) (Sqlite.records db).

(** The rows of a database that hold another url than [u]. *)
Definition other_urls (u : string) (db : Sqlite.database) : list Sqlite.row :=
  filter (fun r => negb (String.eqb (Sqlite.row_url r) u)) (Sqlite.records db).

(** The rows of a database that hold the url [u]. *)
Definition rows_of_url (u : string) (db : Sqlite.database) : list Sqlite.row :=
  filter (fun r => String.eqb (Sqlite.row_url r) u) (Sqlite.records db).

(** What the engine keeps true of a database: the ids ascend along the
    rows, each lies between 1 and the [sqlite_sequence] entry, and that
    entry is a rowid. *)
Definition well_formed (db : Sqlite.database) : Prop :=
  match db with
  | None => True
  | Some s =>
      StronglySorted Z.lt (map Sqlite.row_id (Sqlite.rows s))
      /\ Forall (fun i => 1 <= i <= Sqlite.sqlite_sequence s)%Z
                (map Sqlite.row_id (Sqlite.rows s))
      /\ (Sqlite.sqlite_sequence s <= Sqlite.MAX_ROWID)%Z
  end.

(** Two rows with the same id and the same url. *)
Definition same_key (r r' : Sqlite.row) : Prop :=
  Sqlite.row_id r = Sqlite.row_id r' /\ Sqlite.row_url r = Sqlite.row_url r'.

(** An article of the API read back as a row of the table, field by
    field. *)
Definition row_of_Article (a : Api.Article) : Sqlite.row :=
  (Api.id a, Api.url a, Api.title a, Api.publication_date a,
   Api.fetched_at a).

(** The id and the url of an article of the API. *)
Definition key_of (a : Api.Article) : Z * string := (Api.id a, Api.url a).

(** [r1] may stand before [r2] in a list that ascends by id. *)
Definition not_after (r1 r2 : Sqlite.row) : Prop :=
  (Sqlite.row_id r1 <= Sqlite.row_id r2)%Z.

(** The rows with an id above [last_id]. *)
Definition newer_than (last_id : Z) (rs : list Sqlite.row) : list Sqlite.row :=
  filter (fun r => (last_id <? Sqlite.row_id r)%Z) rs.

(** A row to stand for the last row of an empty list. *)
Definition no_row : Sqlite.row := (0%Z, "", "", "", "").

(** The line the alert script prints when it finds nothing. *)
Definition nothing_new : list string :=
  ["No new articles since last check."].

(** An integer that fits a 64-bit rowid. *)
Definition is_rowid (n : Z) : Prop :=
  (Sqlite.MIN_ROWID <= n <= Sqlite.MAX_ROWID)%Z.

(** The ids a database holds, in the order of its rows. *)
Definition ids (db : Sqlite.database) : list Z :=
  map Sqlite.row_id (Sqlite.records db).

(** [r1] may stand before [r2] in a list that descends by id. *)
Definition before (r1 r2 : Sqlite.row) : Prop :=
  (Sqlite.row_id r2 <= Sqlite.row_id r1)%Z.

(** The script run again and again, each time in its own world, on the
    database the run before left. *)
Definition run_main (ws : list Ingest.env) (db : Sqlite.database)
  : Sqlite.database :=
  fold_left (fun d w => fst (Ingest.main w d)) ws db.

(** The world of the last run of [main] that returned, if any did, along
    the runs of [run_main]; [last] is the one known so far. *)
Fixpoint last_success (ws : list Ingest.env) (db : Sqlite.database)
    (last : option Ingest.env) : option Ingest.env :=
  match ws with
  | [] => last
  | w :: rest =>
      last_success rest (fst (Ingest.main w db))
        (if is_ok (snd (Ingest.main w db)) then Some w else last)
  end.

(** What [run_main] leaves in the table, given the last run that returned:
    nothing when none did, else the one row of [ARTICLE_URL], with id 1
    and with what that run fetched and the time it read. *)
Definition one_record (last : option Ingest.env) (db : Sqlite.database)
  : Prop :=
  match last with
  | None => Sqlite.records db = []
  | Some w =>
      exists title pub_date,
        Ingest.fetch_article w Ingest.ARTICLE_URL = Ok (title, pub_date)
        /\ Sqlite.records db
           = [(1%Z, Ingest.ARTICLE_URL, title, pub_date,
               Clock.strftime_YmdHMS (Ingest.utcnow_save w))]
  end.

(** The lines a run of the alert script printed. *)
Definition lines_of (o : Alert.outcome) : list string :=
  match o with
  | Alert.Printed lines => lines
  | Alert.Raised _ => []
  end.

(** Everything the alert script printed along a sequence of runs of the
    two scripts. *)
Fixpoint transcript (ops : list Alert.op) (fs : Alert.files) : list string :=
  match ops with
  | [] => []
  | Alert.RunAlert :: rest =>
      (lines_of (snd (Alert.check_for_new_articles (Alert.data_db fs)
                        (Alert.alert_state fs)))
       ++ transcript rest (Alert.step Alert.RunAlert fs))%list
  | o :: rest => transcript rest (Alert.step o fs)
  end.

(** The alert lines among printed lines: all but the line that says there
    is nothing new. *)
Definition alerts_in (lines : list string) : list string :=
  filter (fun l => negb (String.eqb l "No new articles since last check."))
         lines.

(** The two files before either script has run. *)
Definition fresh : Alert.files := Alert.mkFiles None None.

(** The id the state file holds. *)
Definition watermark (fs : Alert.files) : Z :=
  Alert.get_last_alerted_id (Alert.alert_state fs).

(** The ids of the table that are not above the id in the state file. *)
Definition already_reported (fs : Alert.files) : list Z :=
  filter (fun i => (i <=? watermark fs)%Z) (ids (Alert.data_db fs)).

(** What holds of the two files as long as only the two scripts write
    them: the database is well formed, and the state file holds 0 or an id
    of the table. *)
Definition consistent (fs : Alert.files) : Prop :=
  well_formed (Alert.data_db fs)
  /\ (watermark fs = 0%Z \/ In (watermark fs) (ids (Alert.data_db fs))).

(** The fetch step fails: no answer from the network, or a status code in
    the 4xx and 5xx ranges. *)
Definition fetch_fails (w : Ingest.env) (url : string) : Prop :=
  Ingest.network w url = Ingest.NoReply
  \/ exists status_code text,
       Ingest.network w url = Ingest.Response status_code text
       /\ (400 <= status_code < 600)%Z.

(** The fetch step succeeds with the given text. *)
Definition fetch_gives (w : Ingest.env) (url text : string) : Prop :=
  exists status_code,
    Ingest.network w url = Ingest.Response status_code text
    /\ ~ (400 <= status_code < 600)%Z.

(** ** Sample documents and worlds *)

Module Sample.
Import Soup Ingest.

Definition newline : string := String (ascii_of_nat 10) "".

(** [<html><head><title>  Foo \n</title></head><body> four time
    elements </body></html>] *)
Definition page_foo : soup :=
  [Tag "html" []
     [Tag "head" [] [Tag "title" [] [NavigableString ("  Foo " ++ newline)]];
      Tag "body" []
        [Tag "time" [] [NavigableString "x"];
         Tag "time" [("datetime", "")] [];
         Tag "time" [("class", "a"); ("datetime", "2024-03-01T10:00")] [];
         Tag "time" [("datetime", "2025-01-01")] []]]].

(** [<title>Foo Updated</title>], no time element. *)
Definition page_updated : soup :=
  [Tag "title" [] [NavigableString "Foo Updated"]].

(** No title element; a time element whose attribute is not a date. *)
Definition page_untitled : soup :=
  [Tag "p" [] [NavigableString "hello"];
   Tag "time" [("datetime", "yesterday at noon")] []].

(** A title element that holds only whitespace. *)
Definition page_blank_title : soup :=
  [Tag "title" [] [NavigableString (" " ++ newline ++ " ")]].

Definition parser (text : string) : soup :=
  if String.eqb text "foo" then page_foo
  else if String.eqb text "updated" then page_updated
  else if String.eqb text "untitled" then page_untitled
  else page_blank_title.

Definition march_1 : Clock.datetime := Clock.mkDatetime 2024 3 1 9 30 0.
Definition march_5 : Clock.datetime := Clock.mkDatetime 2024 3 5 7 8 9.

(** A world that serves [text] with status 200 at the given time. *)
Definition serving (text : string) (t : Clock.datetime) : env :=
  mkEnv (fun _ => Response 200 text) parser t t.

Definition not_found : env :=
  mkEnv (fun _ => Response 404 "foo") parser march_5 march_5.

Definition offline : env :=
  mkEnv (fun _ => NoReply) parser march_5 march_5.

Definition url_a : string := "https://example.com/a".
Definition url_b : string := "https://example.com/b".

Definition calls : list (env * string) :=
  [(serving "foo" march_1, url_a);
   (serving "untitled" march_1, url_b);
   (not_found, "https://example.com/c");
   (serving "updated" march_5, url_a);
   (offline, "https://example.com/d")].

(** The store the five runs above leave behind when they start without
    a database. *)
Definition filled : Sqlite.store :=
  Sqlite.mkStore
    [(1%Z, url_a, "Foo Updated", "2024-03-05", "2024-03-05 07:08:09");
     (2%Z, url_b, url_b, "yesterday ", "2024-03-01 09:30:00")]
    3.

End Sample.

(** * Properties *)

(** ** Strings *)

Section StringFacts.

Lemma append_empty_r (s : string) : s ++ "" = s.
Proof. induction s as [|c s IH]; simpl; [reflexivity | now rewrite IH]. Qed.

Lemma append_assoc (a b c : string) : (a ++ b) ++ c = a ++ b ++ c.
Proof. induction a as [|x a IH]; simpl; [reflexivity | now rewrite IH]. Qed.

Lemma prefix_len (n : nat) : forall s,
  n <= Str.len s -> Str.len (Str.prefix n s) = n.
Proof.
  induction n as [|n IH]; intros s Hn.
  - destruct s; reflexivity.
  - destruct s as [|c s]; simpl in *; [lia|].
    unfold Str.len in *. simpl. rewrite IH; [reflexivity | lia].
Qed.

Lemma truthy_len (s : string) : Str.truthy s = true <-> 1 <= Str.len s.
Proof.
  destruct s; simpl; split; intros H; try discriminate; try reflexivity.
  - inversion H.
  - unfold Str.len; simpl; lia.
Qed.

Lemma lstrip_spec (s : string) :
  exists l, s = l ++ Str.lstrip s
    /\ Str.all_space l = true
    /\ Str.starts_with_space (Str.lstrip s) = false.
Proof.
  induction s as [|c s [l (E & Hl & Hs)]].
  - exists ""; repeat split.
  - simpl. destruct (Str.isspace c) eqn:Hc.
    + exists (String c l). simpl. rewrite Hc, Hl, <- E. repeat split.
      exact Hs.
    + exists "". simpl. repeat split. exact Hc.
Qed.

Lemma rstrip_spec (s : string) :
  exists r, s = Str.rstrip s ++ r
    /\ Str.all_space r = true
    /\ Str.ends_with_space (Str.rstrip s) = false
    /\ (Str.starts_with_space s = false ->
        Str.starts_with_space (Str.rstrip s) = false).
Proof.
  induction s as [|c s [r (E & Hr & He & Hs)]].
  - exists ""; repeat split.
  - simpl. destruct (Str.rstrip s) as [|c' s'] eqn:R.
    + simpl in E. subst r. destruct (Str.isspace c) eqn:Hc.
      * exists (String c s). simpl. rewrite Hc, Hr.
        repeat split; try reflexivity.
      * exists s. simpl. rewrite Hc. repeat split; auto.
    + exists r. simpl in *. rewrite <- E.
      repeat split; auto.
Qed.

Lemma strip_trimmed (s : string) : Str.trimmed_of s (Str.strip s).
Proof.
  unfold Str.strip.
  destruct (lstrip_spec s) as [l (El & Hl & Hs)].
  destruct (rstrip_spec (Str.lstrip s)) as [r (Er & Hr & He & Hk)].
  exists l, r. rewrite <- Er. repeat split; auto.
Qed.

Lemma all_space_lstrip (s : string) :
  Str.all_space s = true -> Str.lstrip s = "".
Proof.
  induction s as [|c s IH]; simpl; [reflexivity|].
  intros H. apply andb_true_iff in H as [Hc Hs]. rewrite Hc. auto.
Qed.

Lemma all_space_strip (s : string) :
  Str.all_space s = true -> Str.strip s = "".
Proof. intros H. unfold Str.strip. now rewrite all_space_lstrip. Qed.

End StringFacts.

(** ** The clock *)

Section ClockFacts.

Lemma is_digit_digit (n : nat) : Clock.is_digit (Clock.digit n) = true.
Proof.
  unfold Clock.is_digit, Clock.digit.
  assert (Hm : n mod 10 < 10) by (apply Nat.mod_upper_bound; lia).
  rewrite nat_ascii_embedding by lia.
  apply andb_true_iff; split; apply Nat.leb_le; lia.
Qed.

Lemma strftime_Ymd_form (t : Clock.datetime) :
  Clock.is_Ymd_form (Clock.strftime_Ymd t) = true.
Proof.
  unfold Clock.is_Ymd_form, Clock.strftime_Ymd, Clock.pad4, Clock.pad2.
  cbn -[Clock.digit Clock.is_digit Nat.div].
  rewrite !is_digit_digit. reflexivity.
Qed.

End ClockFacts.

(** ** The extractor *)

Section ExtractorFacts.
Import Soup Ingest.

Lemma qualifies_get (n : node) :
  qualifies n = true ->
  exists a, get n "datetime" = Some a /\ 10 <= Str.len a.
Proof.
  unfold qualifies, datetime_attr. destruct (get n "datetime") as [a|].
  - intros H. exists a. split; [reflexivity | now apply Nat.leb_le].
  - simpl. discriminate.
Qed.

(** The loop returns what a search for the first qualifying element
    returns. *)
Lemma scan_times_find (metas : list node) :
  scan_times metas =
  option_map (fun t => Str.prefix 10 (datetime_attr t))
             (List.find qualifies metas).
Proof.
  induction metas as [|meta rest IH]; [reflexivity|].
  cbn [scan_times List.find].
  destruct (get meta "datetime") as [a|] eqn:G.
  - assert (Q : qualifies meta = (10 <=? Str.len a)%nat)
      by (unfold qualifies, datetime_attr; now rewrite G).
    rewrite Q. destruct (10 <=? Str.len a)%nat eqn:L.
    + assert (T : Str.truthy a = true).
      { apply truthy_len. apply Nat.leb_le in L. lia. }
      rewrite T. cbn [andb option_map]. unfold datetime_attr.
      now rewrite G.
    + rewrite andb_false_r. exact IH.
  - assert (Q : qualifies meta = false)
      by (unfold qualifies, datetime_attr; now rewrite G).
    rewrite Q. exact IH.
Qed.

(** A date the loop found is never empty, so the fallback keeps it. *)
Lemma scan_times_truthy (metas : list node) (d : string) :
  scan_times metas = Some d -> Str.truthy d = true.
Proof.
  rewrite scan_times_find.
  destruct (List.find qualifies metas) as [t|] eqn:F; cbn [option_map];
    [|discriminate].
  intros E. assert (D : d = Str.prefix 10 (datetime_attr t)) by congruence.
  rewrite D. apply find_some in F as [_ Q].
  apply truthy_len. rewrite prefix_len; [lia|].
  unfold qualifies in Q. now apply Nat.leb_le in Q.
Qed.

Lemma date_or_today_spec (d : soup) (now : Clock.datetime) :
  date_or_today (scan_times (find_all d "time")) now
  = spec_publication_date d (Clock.strftime_Ymd now).
Proof.
  unfold date_or_today, spec_publication_date.
  destruct (scan_times (find_all d "time")) as [s|] eqn:S.
  - rewrite (scan_times_truthy _ _ S). rewrite scan_times_find in S.
    destruct (List.find qualifies (find_all d "time"));
      cbn [option_map] in S; congruence.
  - rewrite scan_times_find in S.
    destruct (List.find qualifies (find_all d "time"));
      cbn [option_map] in S; congruence.
Qed.

Lemma fetch_article_ok (w : env) (url text : string) :
  fetch_gives w url text ->
  fetch_article w url =
  Ok (title_of (find (html_parser w text) "title") url,
      date_or_today (scan_times (find_all (html_parser w text) "time"))
                    (utcnow_fetch w)).
Proof.
  intros (st & N & R). unfold fetch_article, requests_get. rewrite N.
  simpl. unfold raise_for_status.
  destruct ((400 <=? st)%Z && (st <? 600)%Z) eqn:B; [|reflexivity].
  exfalso. apply R. apply andb_true_iff in B as [B1 B2].
  apply Z.leb_le in B1. apply Z.ltb_lt in B2. lia.
Qed.

Lemma fetch_article_fails (w : env) (url : string) :
  fetch_fails w url ->
  exists e, fetch_article w url = Raise e
            /\ (e = RequestException \/ exists st, e = HTTPError st).
Proof.
  intros [N | (st & tx & N & R)]; unfold fetch_article, requests_get;
    rewrite N; simpl.
  - exists RequestException. auto.
  - unfold raise_for_status.
    replace ((400 <=? st)%Z && (st <? 600)%Z) with true.
    + exists (HTTPError st). eauto.
    + symmetry. apply andb_true_iff.
      split; [apply Z.leb_le | apply Z.ltb_lt]; lia.
Qed.

(** The fetch step raises exactly in the two cases of [fetch_fails]. *)
Lemma fetch_fails_iff (w : env) (url : string) :
  (exists e, fetch_article w url = Raise e) <-> fetch_fails w url.
Proof.
  split.
  - intros (e & F). unfold fetch_fails.
    destruct (network w url) as [|st tx] eqn:N; [now left|]. right.
    exists st, tx. split; [reflexivity|].
    destruct (Z.le_gt_cases 400 st) as [L | G];
      [destruct (Z.lt_ge_cases st 600) as [L' | G']|]; [lia | |].
    + rewrite (fetch_article_ok w url tx) in F; [discriminate|].
      exists st. split; [exact N | lia].
    + rewrite (fetch_article_ok w url tx) in F; [discriminate|].
      exists st. split; [exact N | lia].
  - intros H. destruct (fetch_article_fails w url H) as (e & F & _).
    eauto.
Qed.

Lemma find_first_named (nm : string) (d : soup) (t : node) :
  first_named nm d t -> find d nm = Some t.
Proof.
  intros (pre & post & E & Ht & Hpre). unfold find. rewrite E. clear E.
  induction pre as [|x pre IH]; simpl in *.
  - now rewrite Ht.
  - apply andb_true_iff in Hpre as [Hx Hpre].
    apply negb_true_iff in Hx. rewrite Hx. auto.
Qed.

Lemma find_none_named (nm : string) (d : soup) :
  none_named nm d -> find d nm = None.
Proof.
  unfold none_named, find. induction (soup_descendants d) as [|x l IH];
    intros H; simpl; [reflexivity|].
  rewrite (H x) by now left. apply IH. intros n Hn. apply H. now right.
Qed.

(** Every document has a first element of a given name, or none. *)
Lemma first_or_none (nm : string) (d : soup) :
  (exists t, first_named nm d t) \/ none_named nm d.
Proof.
  unfold first_named, none_named.
  induction (soup_descendants d) as [|x l IH].
  - right. intros n [].
  - destruct (is_tag_named nm x) eqn:Hx.
    + left. exists x, [], l. auto.
    + destruct IH as [(t & pre & post & E & Ht & Hp) | Hn].
      * left. exists t, (x :: pre), post. rewrite E. simpl.
        rewrite Hx. auto.
      * right. intros n [<- | Hin]; auto.
Qed.

Lemma find_after_skipped (skipped rest : list node) (t : node) :
  (forall m, In m skipped -> Str.len (datetime_attr m) < 10) ->
  qualifies t = true ->
  List.find qualifies (skipped ++ t :: rest) = Some t.
Proof.
  intros Hs Ht. induction skipped as [|m skipped IH]; cbn [app List.find].
  - now rewrite Ht.
  - assert (Q : qualifies m = false).
    { unfold qualifies. apply Nat.leb_gt. apply Hs. now left. }
    rewrite Q. apply IH. intros m' Hm'. apply Hs. now right.
Qed.

End ExtractorFacts.

(** ** Claims on the extractor *)

(** C2. When the fetch succeeds, the publication date [fetch_article]
    returns is the first ten characters of the [datetime] attribute of the
    first time element, in document order, whose attribute has at least ten
    characters; when no time element qualifies it is the reading of the UTC
    clock printed as [YYYY-MM-DD], which has that shape. *)
Theorem publication_date_first_qualifying_time
    (w : Ingest.env) (url text : string) :
  fetch_gives w url text ->
  (exists title,
     Ingest.fetch_article w url =
     Ok (title,
         spec_publication_date (Ingest.html_parser w text)
           (Clock.strftime_Ymd (Ingest.utcnow_fetch w))))
  /\ Clock.is_Ymd_form (Clock.strftime_Ymd (Ingest.utcnow_fetch w)) = true.
Proof.
  intros H. split; [|apply strftime_Ymd_form].
  eexists. rewrite (fetch_article_ok _ _ _ H), date_or_today_spec.
  reflexivity.
Qed.

Lemma publication_date_first_qualifying_time_witness :
  ((exists title,
      Ingest.fetch_article (Sample.serving "foo" Sample.march_5) Sample.url_a
      = Ok (title, "2024-03-01"))
   /\ Clock.is_Ymd_form "2024-03-05" = true)
  /\ ((exists title,
         Ingest.fetch_article (Sample.serving "updated" Sample.march_5)
           Sample.url_a
         = Ok (title, "2024-03-05"))
      /\ Clock.is_Ymd_form "2024-03-05" = true).
Proof.
  split.
  - apply (publication_date_first_qualifying_time
             (Sample.serving "foo" Sample.march_5) Sample.url_a "foo").
    exists 200%Z. split; [reflexivity | lia].
  - apply (publication_date_first_qualifying_time
             (Sample.serving "updated" Sample.march_5) Sample.url_a "updated").
    exists 200%Z. split; [reflexivity | lia].
Defined.

(** C3. When the fetch succeeds, the title [fetch_article] returns is the
    text of the document's title element without its surrounding
    whitespace, and it is the url when the document has no title
    element. *)
Theorem title_trimmed_or_url (w : Ingest.env) (url text : string) :
  fetch_gives w url text ->
  exists title pub_date,
    Ingest.fetch_article w url = Ok (title, pub_date)
    /\ (forall t, first_named "title" (Ingest.html_parser w text) t ->
          title = Str.strip (Soup.text t)
          /\ Str.trimmed_of (Soup.text t) title)
    /\ (none_named "title" (Ingest.html_parser w text) -> title = url).
Proof.
  intros H. do 2 eexists. split; [apply (fetch_article_ok _ _ _ H)|].
  split.
  - intros t Ht. rewrite (find_first_named _ _ _ Ht).
    cbn [Ingest.title_of]. split; [reflexivity | apply strip_trimmed].
  - intros Hn. now rewrite (find_none_named _ _ Hn).
Qed.

Lemma title_trimmed_or_url_witness :
  exists title pub_date,
    Ingest.fetch_article (Sample.serving "foo" Sample.march_5) Sample.url_a
    = Ok (title, pub_date)
    /\ (forall t, first_named "title" Sample.page_foo t ->
          title = Str.strip (Soup.text t)
          /\ Str.trimmed_of (Soup.text t) title)
    /\ (none_named "title" Sample.page_foo -> title = Sample.url_a).
Proof.
  apply (title_trimmed_or_url
           (Sample.serving "foo" Sample.march_5) Sample.url_a "foo").
  exists 200%Z. split; [reflexivity | lia].
Defined.

(** C8. A title element that is present and whose text is empty or only
    whitespace gives the empty title, not the url. *)
Theorem blank_title_is_empty
    (w : Ingest.env) (url text : string) (t : Soup.node) :
  fetch_gives w url text ->
  first_named "title" (Ingest.html_parser w text) t ->
  Str.all_space (Soup.text t) = true ->
  exists pub_date, Ingest.fetch_article w url = Ok ("", pub_date).
Proof.
  intros H Ht Hs. eexists. rewrite (fetch_article_ok _ _ _ H).
  rewrite (find_first_named _ _ _ Ht). cbn [Ingest.title_of].
  rewrite (all_space_strip _ Hs). reflexivity.
Qed.

Lemma blank_title_is_empty_witness :
  exists pub_date,
    Ingest.fetch_article (Sample.serving "blank" Sample.march_5) Sample.url_a
    = Ok ("", pub_date).
Proof.
  apply (blank_title_is_empty
           (Sample.serving "blank" Sample.march_5) Sample.url_a "blank"
           (Soup.Tag "title" []
              [Soup.NavigableString (" " ++ Sample.newline ++ " ")])).
  - exists 200%Z. split; [reflexivity | lia].
  - exists [], [Soup.NavigableString (" " ++ Sample.newline ++ " ")].
    split; [reflexivity | split; reflexivity].
  - reflexivity.
Defined.

(** C9. The date is not validated: when every time element before [t] has
    a [datetime] attribute that is missing, empty or shorter than ten
    characters, and the attribute [a] of [t] has at least ten characters,
    the publication date is the first ten characters of [a], whatever they
    are; the elements before [t] are skipped. *)
Theorem date_not_validated
    (w : Ingest.env) (url text : string)
    (skipped rest : list Soup.node) (t : Soup.node) (a : string) :
  fetch_gives w url text ->
  Soup.find_all (Ingest.html_parser w text) "time"
    = (skipped ++ t :: rest)%list ->
  (forall m, In m skipped -> Str.len (datetime_attr m) < 10) ->
  Soup.get t "datetime" = Some a ->
  10 <= Str.len a ->
  exists title, Ingest.fetch_article w url = Ok (title, Str.prefix 10 a).
Proof.
  intros H E Hs G L. eexists.
  rewrite (fetch_article_ok _ _ _ H), date_or_today_spec.
  unfold spec_publication_date. rewrite E.
  assert (Q : qualifies t = true).
  { unfold qualifies, datetime_attr. rewrite G. now apply Nat.leb_le. }
  rewrite (find_after_skipped _ _ _ Hs Q). unfold datetime_attr.
  rewrite G. reflexivity.
Qed.

Lemma date_not_validated_witness :
  (exists title,
     Ingest.fetch_article (Sample.serving "untitled" Sample.march_5)
       Sample.url_b
     = Ok (title, "yesterday "))
  /\ (exists title,
        Ingest.fetch_article (Sample.serving "foo" Sample.march_5)
          Sample.url_a
        = Ok (title, "2024-03-01")).
Proof.
  split.
  - apply (date_not_validated
             (Sample.serving "untitled" Sample.march_5) Sample.url_b
             "untitled" [] []
             (Soup.Tag "time" [("datetime", "yesterday at noon")] [])
             "yesterday at noon").
    + exists 200%Z. split; [reflexivity | lia].
    + reflexivity.
    + intros m [].
    + reflexivity.
    + unfold Str.len; simpl; lia.
  - apply (date_not_validated
             (Sample.serving "foo" Sample.march_5) Sample.url_a "foo"
             [Soup.Tag "time" [] [Soup.NavigableString "x"];
              Soup.Tag "time" [("datetime", "")] []]
             [Soup.Tag "time" [("datetime", "2025-01-01")] []]
             (Soup.Tag "time"
                [("class", "a"); ("datetime", "2024-03-01T10:00")] [])
             "2024-03-01T10:00").
    + exists 200%Z. split; [reflexivity | lia].
    + reflexivity.
    + intros m [<- | [<- | []]]; unfold Str.len; simpl; lia.
    + reflexivity.
    + unfold Str.len; simpl; lia.
Defined.

(** ** The store *)

Section StoreFacts.
Import Sqlite Ingest.
Local Open Scope list_scope.

Lemma update_on_conflict_none (u t p f : string) (rs : list row) :
  update_on_conflict u t p f rs = None <-> ~ In u (map row_url rs).
Proof.
  induction rs as [|r rs IH]; cbn [update_on_conflict map In].
  - split; [intros _ [] | reflexivity].
  - destruct (String.eqb_spec (row_url r) u) as [E | N].
    + split; [discriminate | intros H; exfalso; apply H; now left].
    + destruct (update_on_conflict u t p f rs); cbn [option_map].
      * split; [discriminate|]. intros H. exfalso.
        assert (K : ~ In u (map row_url rs)) by tauto.
        apply IH in K. discriminate.
      * split; [|reflexivity]. intros _ [E | H]; [contradiction|].
        destruct IH as [IH _]. now apply IH.
Qed.

(** On a conflict the first row that holds the url is rewritten where it
    stands, with its id. *)
Lemma update_on_conflict_some (u t p f : string) (rs rs' : list row) :
  update_on_conflict u t p f rs = Some rs' ->
  exists pre r post,
    rs = pre ++ r :: post
    /\ row_url r = u
    /\ ~ In u (map row_url pre)
    /\ rs' = pre ++ (row_id r, u, t, p, f) :: post.
Proof.
  revert rs'. induction rs as [|r rs IH]; cbn [update_on_conflict];
    intros rs' H; [discriminate|].
  destruct (String.eqb_spec (row_url r) u) as [E | N].
  - exists [], r, rs. cbn [app map In]. repeat split; try tauto.
    congruence.
  - destruct (update_on_conflict u t p f rs) as [l|]; cbn [option_map] in H;
      [|discriminate].
    destruct (IH l eq_refl) as (pre & r0 & post & E1 & E2 & E3 & E4).
    exists (r :: pre), r0, post. cbn [app map In].
    repeat split; try assumption.
    + now rewrite E1.
    + intros [K | K]; contradiction.
    + rewrite <- E4. congruence.
Qed.

Lemma update_on_conflict_urls (u t p f : string) (rs rs' : list row) :
  update_on_conflict u t p f rs = Some rs' ->
  map row_url rs' = map row_url rs /\ map row_id rs' = map row_id rs.
Proof.
  intros H.
  destruct (update_on_conflict_some _ _ _ _ _ _ H)
    as (pre & r & post & -> & E & _ & ->).
  rewrite !map_app. cbn [map row_url row_id]. now rewrite E.
Qed.

(** A decomposition of rows without repeated urls around a row that holds
    [u] is the only one. *)
Lemma split_at_url (pre pre' post post' : list row) (r r' : row) :
  pre ++ r :: post = pre' ++ r' :: post' ->
  row_url r = row_url r' ->
  NoDup (map row_url (pre ++ r :: post)) ->
  pre = pre' /\ r = r' /\ post = post'.
Proof.
  revert pre'. induction pre as [|x pre IH]; intros pre' E U N.
  - destruct pre' as [|y pre']; cbn [app] in E.
    + injection E as -> ->. auto.
    + exfalso. injection E as -> ->. cbn [app map] in N.
      apply NoDup_cons_iff in N as [N _]. apply N.
      rewrite map_app. apply in_or_app. right. left. congruence.
  - destruct pre' as [|y pre']; cbn [app] in E.
    + exfalso. injection E as -> <-. cbn [app map] in N.
      apply NoDup_cons_iff in N as [N _]. apply N.
      rewrite map_app. apply in_or_app. right. left. congruence.
    + injection E as -> E. cbn [app map] in N.
      apply NoDup_cons_iff in N as [_ N].
      destruct (IH pre' E U N) as (-> & -> & ->). auto.
Qed.

Lemma records_init_db (db : database) : records (init_db db) = records db.
Proof. destruct db; reflexivity. Qed.

Lemma init_db_some (db : database) :
  init_db db = Some (match db with Some s => s | None => empty_store end).
Proof. destruct db; reflexivity. Qed.

(** What a statement that succeeded did to the rows. *)
Lemma insert_on_conflict_update_ok
    (u t p f : string) (db db' : database) :
  insert_on_conflict_update u t p f db = Ok db' ->
  exists s v,
    db = Some s /\ new_rowid s = Ok v
    /\ ((exists rs', update_on_conflict u t p f (rows s) = Some rs'
                     /\ db' = Some (mkStore rs' v))
        \/ (~ In u (map row_url (rows s))
            /\ db' = Some (mkStore (rows s ++ [(v, u, t, p, f)]) v))).
Proof.
  unfold insert_on_conflict_update. destruct db as [s|]; [|discriminate].
  destruct (new_rowid s) as [v|e] eqn:V; cbn [bind]; [|discriminate].
  intros H. exists s, v. split; [reflexivity | split; [exact V|]].
  destruct (update_on_conflict u t p f (rows s)) as [rs'|] eqn:U.
  - left. exists rs'. split; congruence.
  - right. apply update_on_conflict_none in U. split; congruence.
Qed.

(** The two ways a run ends. *)
Lemma ingest_cases (w : env) (url : string) (db : database) :
  (exists e, ingest w url db = (init_db db, Raise e))
  \/ (exists title pub_date db' msg,
        fetch_article w url = Ok (title, pub_date)
        /\ save_article w (init_db db) url title pub_date = Ok db'
        /\ ingest w url db = (db', Ok msg)).
Proof.
  unfold ingest. destruct (fetch_article w url) as [[title pub_date]|e].
  - destruct (save_article w (init_db db) url title pub_date) as [db'|e]
      eqn:S.
    + right. exists title, pub_date, db'. eexists.
      split; [reflexivity | split; [exact S | reflexivity]].
    + left. eauto.
  - left. eauto.
Qed.

Lemma save_article_urls (w : env) (db db' : database) (u t p : string) :
  save_article w db u t p = Ok db' ->
  (In u (urls db) /\ urls db' = urls db)
  \/ (~ In u (urls db) /\ urls db' = urls db ++ [u]).
Proof.
  unfold save_article. intros H.
  apply insert_on_conflict_update_ok in H
    as (s & v & -> & _ & [(rs' & U & ->) | (N & ->)]).
  - left. unfold urls. cbn [records rows].
    destruct (update_on_conflict_urls _ _ _ _ _ _ U) as [E _].
    split; [|exact E].
    destruct (in_dec string_dec u (map row_url (rows s))) as [I | I];
      [exact I|].
    apply update_on_conflict_none with (t := t) (p := p)
      (f := Clock.strftime_YmdHMS (utcnow_save w)) in I. congruence.
  - right. unfold urls. cbn [records rows]. split; [exact N|].
    now rewrite map_app.
Qed.

Lemma NoDup_snoc (A : Type) (l : list A) (x : A) :
  NoDup l -> ~ In x l -> NoDup (l ++ [x]).
Proof.
  intros N I. induction l as [|y l IH]; cbn [app].
  - constructor; [intros [] | constructor].
  - apply NoDup_cons_iff in N as [N1 N2]. constructor.
    + intros K. apply in_app_or in K as [K | [K | []]]; [contradiction|].
      apply I. now left.
    + apply IH; [exact N2|]. intros K. apply I. now right.
Qed.

(** One run keeps the urls of the store distinct and adds at most the
    url it ingested. *)
Lemma ingest_urls (w : env) (url : string) (db : database) :
  NoDup (urls db) ->
  NoDup (urls (fst (ingest w url db)))
  /\ (forall u, In u (urls (fst (ingest w url db))) <->
                In u (urls db)
                \/ (is_ok (snd (ingest w url db)) = true /\ u = url)).
Proof.
  intros N.
  destruct (ingest_cases w url db)
    as [(e & ->) | (t & p & db' & msg & F & S & ->)]; cbn [fst snd is_ok].
  - unfold urls. rewrite records_init_db. split; [exact N|].
    intros u. split; [auto | intros [H | [H _]]; [exact H | discriminate]].
  - apply save_article_urls in S. unfold urls in S.
    rewrite records_init_db in S. fold (urls db) in S. fold (urls db') in S.
    destruct S as [[I ->] | [I ->]].
    + split; [exact N|]. intros u. split; [auto|].
      intros [H | [_ ->]]; assumption.
    + split; [now apply NoDup_snoc|]. intros u. rewrite in_app_iff.
      cbn [In]. split.
      * intros [H | [<- | []]]; auto.
      * intros [H | [_ ->]]; auto.
Qed.

Lemma run_urls (calls : list (env * string)) : forall db,
  NoDup (urls db) ->
  NoDup (urls (run calls db))
  /\ (forall u, In u (urls (run calls db)) <->
                In u (urls db) \/ In u (ingested calls db)).
Proof.
  induction calls as [|[w url] calls IH]; intros db N; cbn [run ingested].
  - split; [exact N|]. intros u. cbn [In]. tauto.
  - destruct (ingest_urls w url db N) as [N' M].
    destruct (IH _ N') as [N'' M'']. split; [exact N''|].
    intros u. rewrite M'', M.
    destruct (ingest w url db) as [db' r]. cbn [fst snd].
    destruct (is_ok r); cbn [In]; intuition congruence.
Qed.

Lemma max_rowid_ge (rs : list row) (r : row) :
  In r rs -> exists m, max_rowid rs = Some m /\ (row_id r <= m)%Z.
Proof.
  induction rs as [|x rs IH]; cbn [In max_rowid]; [intros []|].
  intros [-> | H].
  - destruct (max_rowid rs) as [m|]; eexists; split; try reflexivity; lia.
  - destruct (IH H) as (m & -> & L). eexists; split; [reflexivity | lia].
Qed.

(** The rowid drawn is above every rowid in the table. *)
Lemma new_rowid_fresh (s : store) (v : Z) :
  new_rowid s = Ok v -> forall r, In r (rows s) -> (row_id r < v)%Z.
Proof.
  unfold new_rowid. intros H r I.
  destruct (max_rowid_ge _ _ I) as (m & M & L). rewrite M in H.
  destruct (m =? MAX_ROWID)%Z; [discriminate|].
  destruct (sqlite_sequence s =? MAX_ROWID)%Z; [discriminate|].
  injection H as <-. lia.
Qed.

Lemma ingest_ids (w : env) (url : string) (db : database) :
  NoDup (ids db) -> NoDup (ids (fst (ingest w url db))).
Proof.
  intros N.
  destruct (ingest_cases w url db)
    as [(e & ->) | (t & p & db' & msg & F & S & ->)]; cbn [fst].
  - unfold ids. now rewrite records_init_db.
  - unfold save_article in S.
    apply insert_on_conflict_update_ok in S
      as (s & v & E & V & [(rs' & U & ->) | (_ & ->)]);
      unfold ids in *; rewrite <- records_init_db, E in N;
      cbn [records rows] in *.
    + apply update_on_conflict_urls in U as [_ ->]. exact N.
    + rewrite map_app. cbn [map row_id]. apply NoDup_snoc; [exact N|].
      intros K. apply in_map_iff in K as (r & Er & Ir).
      pose proof (new_rowid_fresh _ _ V r Ir). lia.
Qed.

(** The primary key: the ids of a store filled by runs are distinct. *)
Lemma run_ids (calls : list (env * string)) : forall db,
  NoDup (ids db) -> NoDup (ids (run calls db)).
Proof.
  induction calls as [|[w url] calls IH]; intros db N; cbn [run];
    [exact N|].
  apply IH. now apply ingest_ids.
Qed.

(** Every run leaves the table in place. *)
Lemma ingest_creates_table (w : env) (url : string) (db : database) :
  exists s, fst (ingest w url db) = Some s.
Proof.
  destruct (ingest_cases w url db)
    as [(e & ->) | (t & p & db' & msg & F & S & ->)]; cbn [fst].
  - rewrite init_db_some. eauto.
  - unfold save_article in S.
    apply insert_on_conflict_update_ok in S
      as (s & v & _ & _ & [(rs' & _ & ->) | (_ & ->)]); eauto.
Qed.

End StoreFacts.

(** ** Claims on ingestion *)

(** C1. From a store without records, after any sequence of runs the urls
    of the stored records are pairwise distinct and there are as many
    records as distinct urls among the runs that succeeded; a further run
    that succeeds on a url already stored rewrites that record where it
    stands, with the new title, publication date and fetch time and with
    the id it had, and leaves the other records as they were. *)
Theorem one_record_per_url
    (calls : list (Ingest.env * string)) (db0 : Sqlite.database) :
  Sqlite.records db0 = [] ->
  let db := Ingest.run calls db0 in
  NoDup (urls db)
  /\ List.length (Sqlite.records db)
     = List.length (nodup string_dec (Ingest.ingested calls db0))
  /\ (forall w url db' msg pre r post,
        Ingest.ingest w url db = (db', Ok msg) ->
        Sqlite.records db = (pre ++ r :: post)%list ->
        Sqlite.row_url r = url ->
        exists title pub_date,
          Ingest.fetch_article w url = Ok (title, pub_date)
          /\ Sqlite.records db'
             = (pre ++ (Sqlite.row_id r, url, title, pub_date,
                        Clock.strftime_YmdHMS (Ingest.utcnow_save w))
                    :: post)%list).
Proof.
  intros E0 db.
  assert (N0 : NoDup (urls db0)) by (unfold urls; rewrite E0; constructor).
  destruct (run_urls calls db0 N0) as [N M]. fold db in N, M.
  split; [exact N|]. split.
  - unfold urls in *. rewrite <- (length_map Sqlite.row_url).
    apply Permutation_length. apply NoDup_Permutation.
    + exact N.
    + apply NoDup_nodup.
    + intros u. rewrite M, nodup_In, E0. cbn [map In]. tauto.
  - intros w url db' msg pre r post I R U.
    destruct (ingest_cases w url db)
      as [(e & K) | (t & p & db'' & msg' & F & S & K)];
      rewrite K in I; [discriminate|].
    injection I as -> _. exists t, p. split; [exact F|].
    unfold Ingest.save_article in S.
    apply insert_on_conflict_update_ok in S
      as (s & v & Es & _ & [(rs' & Up & ->) | (Nin & _)]).
    + assert (Rs : Sqlite.rows s = Sqlite.records db).
      { rewrite <- records_init_db, Es. reflexivity. }
      apply update_on_conflict_some in Up
        as (pre0 & r0 & post0 & E1 & E2 & _ & ->).
      rewrite Rs, R in E1. cbn [Sqlite.records Sqlite.rows].
      assert (Nd : NoDup (map Sqlite.row_url (pre ++ r :: post)%list)).
      { unfold urls in N. now rewrite R in N. }
      destruct (split_at_url _ _ _ _ _ _ E1 (eq_trans U (eq_sym E2)) Nd)
        as (<- & <- & <-).
      reflexivity.
    + exfalso. apply Nin.
      assert (Rs : Sqlite.rows s = Sqlite.records db).
      { rewrite <- records_init_db, Es. reflexivity. }
      rewrite Rs, R, map_app. apply in_or_app. right. left. exact U.
Qed.

Lemma one_record_per_url_witness :
  let db := Ingest.run Sample.calls None in
  NoDup (urls db)
  /\ List.length (Sqlite.records db)
     = List.length (nodup string_dec (Ingest.ingested Sample.calls None))
  /\ (forall w url db' msg pre r post,
        Ingest.ingest w url db = (db', Ok msg) ->
        Sqlite.records db = (pre ++ r :: post)%list ->
        Sqlite.row_url r = url ->
        exists title pub_date,
          Ingest.fetch_article w url = Ok (title, pub_date)
          /\ Sqlite.records db'
             = (pre ++ (Sqlite.row_id r, url, title, pub_date,
                        Clock.strftime_YmdHMS (Ingest.utcnow_save w))
                    :: post)%list).
Proof. exact (one_record_per_url Sample.calls None eq_refl). Defined.

(** The sample runs end to end: the third and the fifth fail at the fetch,
    the fourth updates the record of the first and keeps id 1. *)
Example sample_runs :
  Ingest.run Sample.calls None = Some Sample.filled
  /\ Ingest.ingested Sample.calls None
     = [Sample.url_a; Sample.url_b; Sample.url_a].
Proof. split; reflexivity. Qed.

(** C4. When the fetch step fails (no answer from the network, or a status
    code in the 4xx and 5xx ranges) the run ends with the exception of the
    fetch and the stored records are those from before the run. *)
Theorem failed_fetch_writes_nothing
    (w : Ingest.env) (url : string) (db : Sqlite.database) :
  fetch_fails w url ->
  exists e,
    snd (Ingest.ingest w url db) = Raise e
    /\ Ingest.fetch_article w url = Raise e
    /\ (e = RequestException \/ exists st, e = HTTPError st)
    /\ Sqlite.records (fst (Ingest.ingest w url db)) = Sqlite.records db.
Proof.
  intros H. destruct (fetch_article_fails w url H) as (e & F & K).
  exists e. unfold Ingest.ingest. rewrite F. cbn [fst snd].
  rewrite records_init_db. auto.
Qed.

Lemma failed_fetch_writes_nothing_witness :
  exists e,
    snd (Ingest.ingest Sample.not_found Sample.url_a
           (Ingest.run Sample.calls None)) = Raise e
    /\ Ingest.fetch_article Sample.not_found Sample.url_a = Raise e
    /\ (e = RequestException \/ exists st, e = HTTPError st)
    /\ Sqlite.records
         (fst (Ingest.ingest Sample.not_found Sample.url_a
                 (Ingest.run Sample.calls None)))
       = Sqlite.records (Ingest.run Sample.calls None).
Proof.
  apply (failed_fetch_writes_nothing Sample.not_found Sample.url_a
           (Ingest.run Sample.calls None)).
  right. exists 404%Z, "foo". split; [reflexivity | lia].
Defined.

(** C10. The table is created before the fetch: a run whose fetch fails
    leaves the database as [init_db] made it, so the [articles] table
    exists (empty when the database had none), and the rows are those from
    before the run. *)
Theorem schema_created_before_fetch
    (w : Ingest.env) (url : string) (db : Sqlite.database) :
  fetch_fails w url ->
  fst (Ingest.ingest w url db) = Ingest.init_db db
  /\ (exists s, fst (Ingest.ingest w url db) = Some s)
  /\ (db = None -> fst (Ingest.ingest w url db) = Some Sqlite.empty_store)
  /\ Sqlite.records (fst (Ingest.ingest w url db)) = Sqlite.records db.
Proof.
  intros H. destruct (fetch_article_fails w url H) as (e & F & _).
  assert (E : fst (Ingest.ingest w url db) = Ingest.init_db db).
  { unfold Ingest.ingest. now rewrite F. }
  rewrite E. split; [reflexivity|]. split; [|split].
  - rewrite init_db_some. eauto.
  - now intros ->.
  - apply records_init_db.
Qed.

Lemma schema_created_before_fetch_witness :
  fst (Ingest.ingest Sample.offline Sample.url_a None) = Ingest.init_db None
  /\ (exists s, fst (Ingest.ingest Sample.offline Sample.url_a None) = Some s)
  /\ (@None Sqlite.store = None ->
      fst (Ingest.ingest Sample.offline Sample.url_a None)
      = Some Sqlite.empty_store)
  /\ Sqlite.records (fst (Ingest.ingest Sample.offline Sample.url_a None))
     = Sqlite.records None.
Proof.
  apply (schema_created_before_fetch Sample.offline Sample.url_a None).
  left. reflexivity.
Defined.

(** ** The read API *)

Section ApiFacts.
Import Sqlite Api.
Local Open Scope list_scope.
Local Open Scope Z_scope.

Lemma insert_desc_perm (r : row) (l : list row) :
  Permutation (insert_desc r l) (r :: l).
Proof.
  induction l as [|x l IH]; cbn [insert_desc]; [apply Permutation_refl|].
  destruct (row_id x <=? row_id r); [apply Permutation_refl|].
  eapply perm_trans; [apply perm_skip, IH | apply perm_swap].
Qed.

Lemma order_by_id_desc_perm (rs : list row) :
  Permutation (order_by_id_desc rs) rs.
Proof.
  induction rs as [|r rs IH]; cbn [order_by_id_desc fold_right];
    [constructor|].
  eapply perm_trans; [apply insert_desc_perm | now apply perm_skip].
Qed.

Lemma insert_desc_sorted (r : row) (l : list row) :
  StronglySorted before l -> StronglySorted before (insert_desc r l).
Proof.
  induction 1 as [|x l S IH F]; cbn [insert_desc].
  - repeat constructor.
  - destruct (Z.leb_spec (row_id x) (row_id r)) as [L | G].
    + constructor; [now constructor|]. constructor; [exact L|].
      eapply Forall_impl; [|exact F]. unfold before. intros; lia.
    + constructor; [exact IH|].
      eapply Permutation_Forall;
        [apply Permutation_sym, insert_desc_perm|].
      constructor; [unfold before; lia | exact F].
Qed.

Lemma order_by_id_desc_sorted (rs : list row) :
  StronglySorted before (order_by_id_desc rs).
Proof.
  induction rs as [|r rs IH]; cbn [order_by_id_desc fold_right];
    [constructor|].
  now apply insert_desc_sorted.
Qed.

Lemma StronglySorted_map (A B : Type) (f : A -> B)
    (R : B -> B -> Prop) (l : list A) :
  StronglySorted (fun x y => R (f x) (f y)) l ->
  StronglySorted R (map f l).
Proof.
  induction 1 as [|x l S IH F]; cbn [map]; constructor; [exact IH|].
  apply Forall_map. exact F.
Qed.

Lemma find_by_id_none (rs : list row) (i : Z) :
  ~ In i (map row_id rs) ->
  List.find (fun r => row_id r =? i) rs = None.
Proof.
  induction rs as [|r rs IH]; cbn [map In List.find]; [reflexivity|].
  intros H. destruct (Z.eqb_spec (row_id r) i) as [E | N]; [tauto|].
  apply IH. tauto.
Qed.

Lemma find_by_id_some (rs : list row) (i : Z) :
  In i (map row_id rs) ->
  exists r, List.find (fun r => row_id r =? i) rs = Some r
            /\ In r rs /\ row_id r = i.
Proof.
  induction rs as [|r rs IH]; cbn [map In List.find]; [intros []|].
  intros H. destruct (Z.eqb_spec (row_id r) i) as [E | N].
  - exists r. auto.
  - destruct H as [H | H]; [contradiction|].
    destruct (IH H) as (r' & F & I & E). exists r'. auto.
Qed.

(** Under the primary key a row is determined by its id. *)
Lemma row_of_id_unique (rs : list row) (r r' : row) :
  NoDup (map row_id rs) ->
  In r rs -> In r' rs -> row_id r = row_id r' -> r = r'.
Proof.
  induction rs as [|x rs IH]; cbn [map In]; [intros _ []|].
  intros N I I' E. apply NoDup_cons_iff in N as [Nx N].
  destruct I as [-> | I], I' as [-> | I']; auto.
  - exfalso. apply Nx. rewrite E. now apply in_map.
  - exfalso. apply Nx. rewrite <- E. now apply in_map.
Qed.

End ApiFacts.

(** ** Claims on the read API *)

(** What [get_article] does with an id that fits 64 bits, on a database
    that holds the table. *)
Lemma get_article_in_range (s : Sqlite.store) (i : Z) :
  is_rowid i ->
  Api.get_article (Some s) i
  = match List.find (fun r => (Sqlite.row_id r =? i)%Z) (Sqlite.rows s) with
    | Some r => Ok (Api.Article_of_row r)
    | None => Raise (HTTPException 404 "Article not found")
    end.
Proof.
  intros [L1 L2]. unfold Api.get_article, Api.get_db_connection,
    Sqlite.select_by_id.
  apply Z.leb_le in L1, L2. rewrite L1, L2. reflexivity.
Qed.

Lemma row_of_Article_of_row (r : Sqlite.row) :
  row_of_Article (Api.Article_of_row r) = r.
Proof. destruct r as [[[[i u] t] p] f]. reflexivity. Qed.

(** C5. On every [articles] table [list_articles] returns the stored
    records, each once and field by field, sorted by id in descending
    order; on a database without the table, whose set of records is empty
    too, it raises sqlite3's [OperationalError] instead of returning the
    empty list. *)
Theorem list_articles_all_desc :
  (forall s : Sqlite.store,
     exists articles,
       Api.list_articles (Some s) = Ok articles
       /\ Permutation (map row_of_Article articles) (Sqlite.rows s)
       /\ StronglySorted (fun a b => (Api.id b <= Api.id a)%Z) articles)
  /\ Sqlite.records None = []
  /\ Api.list_articles None
     = Raise (OperationalError "no such table: articles").
Proof.
  split; [|split; reflexivity].
  intros s. eexists. split; [reflexivity|]. split.
  - rewrite map_map.
    rewrite (map_ext _ (fun r => r) row_of_Article_of_row), map_id.
    apply order_by_id_desc_perm.
  - apply StronglySorted_map. cbn [Api.Article_of_row Api.id].
    apply order_by_id_desc_sorted.
Qed.

(** C7. On an [articles] table without rows [list_articles] returns the
    empty sequence; on a database without the table, the state before the
    first run of the ingestion script, it raises sqlite3's
    [OperationalError] instead. *)
Theorem list_articles_empty_store :
  (forall q, Api.list_articles (Some (Sqlite.mkStore [] q)) = Ok [])
  /\ Api.list_articles (Ingest.init_db None) = Ok []
  /\ Sqlite.records None = []
  /\ Api.list_articles None
     = Raise (OperationalError "no such table: articles").
Proof. repeat split. Qed.

(** C6. On a database that holds the table and for an id that fits 64
    bits, [get_article] raises the 404 exception when no stored record
    carries the id, and returns the record, field by field, when one does
    (under the primary key the only one).  For an id outside the 64-bit
    integers, which no record carries, it raises sqlite3's [OverflowError]
    and not the 404 exception; on a database without the table it raises
    [OperationalError] for every id. *)
Theorem get_article_by_id (article_id : Z) :
  (forall s : Sqlite.store,
     is_rowid article_id ->
     ~ In article_id (map Sqlite.row_id (Sqlite.rows s)) ->
     Api.get_article (Some s) article_id
     = Raise (HTTPException 404 "Article not found"))
  /\ (forall s : Sqlite.store,
        is_rowid article_id ->
        In article_id (map Sqlite.row_id (Sqlite.rows s)) ->
        exists a,
          Api.get_article (Some s) article_id = Ok a
          /\ In (row_of_Article a) (Sqlite.rows s)
          /\ Api.id a = article_id
          /\ (NoDup (map Sqlite.row_id (Sqlite.rows s)) ->
              forall r, In r (Sqlite.rows s) ->
                        Sqlite.row_id r = article_id ->
                        r = row_of_Article a))
  /\ (forall s : Sqlite.store,
        ~ is_rowid article_id ->
        Api.get_article (Some s) article_id = Raise OverflowError)
  /\ Api.get_article None article_id
     = Raise (OperationalError "no such table: articles").
Proof.
  split; [|split; [|split; [|reflexivity]]].
  - intros s R H. rewrite (get_article_in_range _ _ R).
    now rewrite find_by_id_none.
  - intros s R H. rewrite (get_article_in_range _ _ R).
    destruct (find_by_id_some _ _ H) as (r & F & I & E).
    exists (Api.Article_of_row r). rewrite F, row_of_Article_of_row.
    split; [reflexivity|]. split; [exact I|]. split; [exact E|].
    intros N r' I' E'. apply (row_of_id_unique _ _ _ N I' I). congruence.
  - intros s R. unfold Api.get_article, Api.get_db_connection,
      Sqlite.select_by_id.
    destruct ((Sqlite.MIN_ROWID <=? article_id)%Z
              && (article_id <=? Sqlite.MAX_ROWID)%Z) eqn:B; [|reflexivity].
    exfalso. apply R. apply andb_true_iff in B as [B1 B2].
    split; now apply Z.leb_le.
Qed.

Lemma get_article_by_id_witness :
  Api.get_article (Some Sample.filled) 3
  = Raise (HTTPException 404 "Article not found")
  /\ Api.get_article (Some Sample.filled) 2
     = Ok (Api.mkArticle 2 Sample.url_b Sample.url_b "yesterday "
             "2024-03-01 09:30:00")
  /\ Api.get_article (Some Sample.filled) 9223372036854775808
     = Raise OverflowError
  /\ Api.get_article None 1
     = Raise (OperationalError "no such table: articles").
Proof.
  split; [|split; [|split]].
  - apply (get_article_by_id 3).
    + split; vm_compute; discriminate.
    + cbn. intros [H | [H | []]]; discriminate.
  - destruct (get_article_by_id 2) as (_ & H & _).
    destruct (H Sample.filled) as (a & G & _).
    + split; vm_compute; discriminate.
    + cbn. right. left. reflexivity.
    + reflexivity.
  - apply (get_article_by_id 9223372036854775808).
    intros [_ H]. vm_compute in H. now apply H.
  - apply (get_article_by_id 1).
Defined.

(** * Further properties *)

(** ** More on [step1_ingest.py] *)

Section IngestMore.
Import Sqlite Ingest.
Local Open Scope list_scope.

Lemma strftime_Ymd_len (t : Clock.datetime) :
  Str.len (Clock.strftime_Ymd t) = 10.
Proof. reflexivity. Qed.

(** What a fetch that returned was given and what it made of it. *)
Lemma fetch_article_inv (w : env) (url title pub_date : string) :
  fetch_article w url = Ok (title, pub_date) ->
  exists text,
    fetch_gives w url text
    /\ title = title_of (Soup.find (html_parser w text) "title") url
    /\ pub_date = spec_publication_date (html_parser w text)
                    (Clock.strftime_Ymd (utcnow_fetch w)).
Proof.
  intros F. destruct (network w url) as [|st tx] eqn:N.
  - unfold fetch_article, requests_get in F. rewrite N in F. discriminate.
  - destruct ((400 <=? st)%Z && (st <? 600)%Z) eqn:B.
    + unfold fetch_article, requests_get in F. rewrite N in F.
      cbn [bind] in F. unfold raise_for_status in F. rewrite B in F.
      discriminate.
    + assert (G : fetch_gives w url tx).
      { exists st. split; [exact N|]. intros [L1 L2].
        apply andb_false_iff in B as [B | B];
          [apply Z.leb_gt in B | apply Z.ltb_ge in B]; lia. }
      exists tx. split; [exact G|].
      rewrite (fetch_article_ok _ _ _ G), date_or_today_spec in F.
      split; congruence.
Qed.

Lemma filter_url_nil (u : string) (l : list row) :
  ~ In u (map row_url l) ->
  filter (fun r => String.eqb (row_url r) u) l = [].
Proof.
  induction l as [|r l IH]; cbn [map In filter]; [reflexivity|].
  intros H. destruct (String.eqb_spec (row_url r) u) as [E | N]; [tauto|].
  apply IH. tauto.
Qed.

Lemma filter_other_url_app (u : string) (l1 l2 : list row) (r : row) :
  row_url r = u ->
  filter (fun x => negb (String.eqb (row_url x) u)) (l1 ++ r :: l2)
  = filter (fun x => negb (String.eqb (row_url x) u)) (l1 ++ l2).
Proof.
  intros E. rewrite !filter_app. cbn [filter].
  rewrite E, String.eqb_refl. reflexivity.
Qed.

(** The rows after a run that succeeded, on either path of the upsert. *)
Lemma ingest_ok_rows (w : env) (url : string) (db db' : database)
    (msg : string) :
  ingest w url db = (db', Ok msg) ->
  exists title pub_date v,
    fetch_article w url = Ok (title, pub_date)
    /\ msg = ("Fetched '" ++ title ++ "' published " ++ pub_date
                 ++ " and stored in database.")%string
    /\ ((exists pre r post,
           records db = pre ++ r :: post
           /\ row_url r = url
           /\ ~ In url (map row_url pre)
           /\ records db'
              = pre ++ (row_id r, url, title, pub_date,
                        Clock.strftime_YmdHMS (utcnow_save w)) :: post)
        \/ (~ In url (urls db)
            /\ (forall r, In r (records db) -> (row_id r < v)%Z)
            /\ records db'
               = records db ++ [(v, url, title, pub_date,
                                 Clock.strftime_YmdHMS (utcnow_save w))])).
Proof.
  intros I. unfold ingest in I.
  destruct (fetch_article w url) as [[t p]|e] eqn:F; [|discriminate].
  destruct (save_article w (init_db db) url t p) as [d|e] eqn:S;
    [|discriminate].
  injection I as <- <-. unfold save_article in S.
  apply insert_on_conflict_update_ok in S
    as (s & v & Es & V & [(rs' & Up & ->) | (Nin & ->)]).
  - assert (Rs : rows s = records db).
    { rewrite <- records_init_db, Es. reflexivity. }
    exists t, p, v. split; [reflexivity|]. split; [reflexivity|]. left.
    apply update_on_conflict_some in Up
      as (pre & r & post & E1 & E2 & E3 & ->).
    exists pre, r, post. rewrite <- Rs. auto.
  - assert (Rs : rows s = records db).
    { rewrite <- records_init_db, Es. reflexivity. }
    exists t, p, v. split; [reflexivity|]. split; [reflexivity|]. right.
    unfold urls. rewrite <- Rs. cbn [records rows].
    split; [exact Nin|]. split; [|reflexivity].
    apply (new_rowid_fresh _ _ V).
Qed.

(** A run that raised left the database as [init_db] made it. *)
Lemma ingest_raise_db (w : env) (url : string) (db : database) (e : exn) :
  snd (ingest w url db) = Raise e -> fst (ingest w url db) = init_db db.
Proof.
  destruct (ingest_cases w url db)
    as [(e' & ->) | (t & p & db' & msg & _ & _ & ->)]; cbn [fst snd];
    [reflexivity | discriminate].
Qed.

End IngestMore.

(** X1. The publication date that [fetch_article] returns always has
    exactly ten characters, whether it comes from a [datetime] attribute
    or from the clock. *)
Theorem fetch_article_date_has_ten_characters
    (w : Ingest.env) (url title pub_date : string) :
  Ingest.fetch_article w url = Ok (title, pub_date) ->
  Str.len pub_date = 10.
Proof.
  intros F. destruct (fetch_article_inv _ _ _ _ F) as (text & _ & _ & ->).
  unfold spec_publication_date.
  destruct (List.find qualifies
              (Soup.find_all (Ingest.html_parser w text) "time")) as [t|]
    eqn:Q.
  - apply find_some in Q as [_ Q]. apply prefix_len.
    unfold qualifies in Q. now apply Nat.leb_le in Q.
  - apply strftime_Ymd_len.
Qed.

Lemma fetch_article_date_has_ten_characters_witness :
  Str.len "yesterday " = 10.
Proof.
  apply (fetch_article_date_has_ten_characters
           (Sample.serving "untitled" Sample.march_5) Sample.url_b
           Sample.url_b "yesterday ").
  reflexivity.
Defined.

Section StoreMore.
Import Sqlite Ingest.
Local Open Scope list_scope.
Local Open Scope Z_scope.

Lemma StronglySorted_snoc (l : list Z) (v : Z) :
  StronglySorted Z.lt l -> (forall x, In x l -> x < v) ->
  StronglySorted Z.lt (l ++ [v]).
Proof.
  induction 1 as [|x l S IH F]; intros H; cbn [app].
  - repeat constructor.
  - constructor.
    + apply IH. intros y Hy. apply H. now right.
    + apply Forall_app. split; [exact F|]. constructor; [|constructor].
      apply H. now left.
Qed.

Lemma new_rowid_bounds (s : store) (v : Z) :
  well_formed (Some s) -> new_rowid s = Ok v ->
  sqlite_sequence s < v /\ 1 <= v <= MAX_ROWID.
Proof.
  intros (_ & B & M) H. unfold new_rowid in H.
  destruct (max_rowid (rows s)) as [m|] eqn:Mx.
  - assert (Hm : 1 <= m <= sqlite_sequence s).
    { clear H. revert m Mx. induction (rows s) as [|r l IH];
        cbn [max_rowid map]; intros m Mx; [discriminate|].
      apply Forall_cons_iff in B as [B1 B2].
      destruct (max_rowid l) as [m'|].
      - specialize (IH B2 m' eq_refl). injection Mx as <-. lia.
      - injection Mx as <-. exact B1. }
    destruct (m =? MAX_ROWID) eqn:E1; [discriminate|].
    destruct (sqlite_sequence s =? MAX_ROWID) eqn:E2; [discriminate|].
    apply Z.eqb_neq in E1, E2. injection H as <-. lia.
  - destruct (sqlite_sequence s =? MAX_ROWID) eqn:E2; [discriminate|].
    apply Z.eqb_neq in E2. injection H as <-.
    destruct (rows s) as [|r l]; cbn [max_rowid map] in *.
    + unfold MAX_ROWID in *. lia.
    + destruct (max_rowid l); discriminate.
Qed.

(** One run keeps the database well formed. *)
Lemma ingest_well_formed (w : env) (url : string) (db : database) :
  well_formed db -> well_formed (fst (ingest w url db)).
Proof.
  intros W.
  assert (Wi : well_formed (init_db db)).
  { destruct db; [exact W|]. cbn. repeat split; try constructor.
    unfold MAX_ROWID. lia. }
  destruct (ingest_cases w url db)
    as [(e & ->) | (t & p & db' & msg & F & S & ->)]; cbn [fst];
    [exact Wi|].
  unfold save_article in S.
  apply insert_on_conflict_update_ok in S
    as (s & v & Es & V & [(rs' & Up & ->) | (_ & ->)]);
    rewrite Es in Wi; destruct (new_rowid_bounds _ _ Wi V) as [L1 L2];
    destruct Wi as (So & B & M); cbn [well_formed rows sqlite_sequence].
  - apply update_on_conflict_urls in Up as [_ ->].
    split; [exact So|]. split; [|lia].
    eapply Forall_impl; [|exact B]. cbn beta. intros; lia.
  - rewrite map_app. cbn [map row_id]. split; [|split; [|lia]].
    + apply StronglySorted_snoc; [exact So|]. intros x Hx.
      rewrite Forall_forall in B. specialize (B x Hx). lia.
    + apply Forall_app. split.
      * eapply Forall_impl; [|exact B]. cbn beta. intros; lia.
      * constructor; [lia | constructor].
Qed.

Lemma run_well_formed (calls : list (env * string)) : forall db,
  well_formed db -> well_formed (run calls db).
Proof.
  induction calls as [|[w url] calls IH]; intros db W; cbn [run];
    [exact W|].
  apply IH. now apply ingest_well_formed.
Qed.

(** In a well-formed database the ids ascend and are rowids from 1 on. *)
Lemma well_formed_ids (db : database) :
  well_formed db ->
  StronglySorted Z.lt (ids db)
  /\ Forall (fun i => 1 <= i <= MAX_ROWID) (ids db).
Proof.
  destruct db as [s|]; unfold ids; cbn [records well_formed].
  - intros (So & B & M). split; [exact So|].
    eapply Forall_impl; [|exact B]. cbn beta. intros; lia.
  - intros _. split; constructor.
Qed.

Lemma ingest_pairs (w : env) (url : string) (db : database) :
  exists added,
    id_url_pairs (fst (ingest w url db)) = id_url_pairs db ++ added.
Proof.
  destruct (ingest w url db) as [db' [msg|e]] eqn:I; cbn [fst].
  - destruct (ingest_ok_rows _ _ _ _ _ I)
      as (t & p & v & _ & _ & [(pre & r & post & E1 & E2 & _ & E3)
                              | (_ & _ & E3)]);
      unfold id_url_pairs; rewrite E3.
    + exists []. rewrite E1, app_nil_r, !map_app. cbn [map row_id row_url].
      now rewrite E2.
    + eexists. rewrite map_app. reflexivity.
  - exists []. rewrite app_nil_r.
    assert (K : snd (ingest w url db) = Raise e) by now rewrite I.
    apply ingest_raise_db in K. rewrite I in K. cbn [fst] in K.
    unfold id_url_pairs. now rewrite K, records_init_db.
Qed.

End StoreMore.

(** X3. After a run that succeeded on a database whose urls are distinct,
    exactly one row holds the url, and it carries the title and the date
    just fetched and the time of this run; this holds whether the row was
    inserted or updated. *)
Theorem ingest_stores_what_it_fetched
    (w : Ingest.env) (url : string) (db db' : Sqlite.database)
    (msg : string) :
  NoDup (urls db) ->
  Ingest.ingest w url db = (db', Ok msg) ->
  exists i title pub_date,
    Ingest.fetch_article w url = Ok (title, pub_date)
    /\ rows_of_url url db'
       = [(i, url, title, pub_date,
           Clock.strftime_YmdHMS (Ingest.utcnow_save w))].
Proof.
  intros N I.
  destruct (ingest_ok_rows _ _ _ _ _ I)
    as (t & p & v & F & _ & [(pre & r & post & E1 & E2 & E3 & E4)
                            | (Nin & _ & E4)]).
  - exists (Sqlite.row_id r), t, p. split; [exact F|].
    unfold rows_of_url. rewrite E4, filter_app. cbn [filter Sqlite.row_url].
    rewrite String.eqb_refl, (filter_url_nil _ _ E3).
    rewrite filter_url_nil; [reflexivity|].
    unfold urls in N. rewrite E1, map_app in N. cbn [map] in N.
    apply NoDup_remove_2 in N. intros K. apply N.
    apply in_or_app. right. now rewrite E2.
  - exists v, t, p. split; [exact F|].
    unfold rows_of_url. rewrite E4, filter_app. cbn [filter Sqlite.row_url].
    rewrite String.eqb_refl, (filter_url_nil _ _ Nin). reflexivity.
Qed.

Lemma ingest_stores_what_it_fetched_witness :
  exists i title pub_date,
    Ingest.fetch_article (Sample.serving "updated" Sample.march_5)
      Sample.url_b = Ok (title, pub_date)
    /\ rows_of_url Sample.url_b
         (fst (Ingest.ingest (Sample.serving "updated" Sample.march_5)
                 Sample.url_b (Some Sample.filled)))
       = [(i, Sample.url_b, title, pub_date,
           Clock.strftime_YmdHMS Sample.march_5)].
Proof.
  apply (ingest_stores_what_it_fetched
           (Sample.serving "updated" Sample.march_5) Sample.url_b
           (Some Sample.filled) _
           "Fetched 'Foo Updated' published 2024-03-05 and stored in database.").
  - repeat constructor; cbn; intuition discriminate.
  - reflexivity.
Defined.

(** X4. A run on a url, whether it succeeds or raises, changes no row that
    holds another url, nor the order of those rows. *)
Theorem ingest_leaves_other_urls
    (w : Ingest.env) (url : string) (db : Sqlite.database) :
  other_urls url (fst (Ingest.ingest w url db)) = other_urls url db.
Proof.
  destruct (Ingest.ingest w url db) as [db' [msg|e]] eqn:I; cbn [fst].
  - destruct (ingest_ok_rows _ _ _ _ _ I)
      as (t & p & v & _ & _ & [(pre & r & post & E1 & E2 & _ & E3)
                              | (_ & _ & E3)]);
      unfold other_urls; rewrite E3.
    + rewrite E1, !filter_other_url_app; auto.
    + rewrite filter_app. cbn [filter Sqlite.row_url].
      rewrite String.eqb_refl. cbn [negb]. apply app_nil_r.
  - assert (K : snd (Ingest.ingest w url db) = Raise e) by now rewrite I.
    apply ingest_raise_db in K. rewrite I in K. cbn [fst] in K.
    unfold other_urls. now rewrite K, records_init_db.
Qed.

(** X5. Starting without a database, after any sequence of runs the ids
    ascend strictly along the rows, so a later insertion always has the
    larger id, and every id is a rowid from 1 on. *)
Theorem ids_ascend_from_one (calls : list (Ingest.env * string)) :
  StronglySorted Z.lt (ids (Ingest.run calls None))
  /\ Forall (fun i => 1 <= i <= Sqlite.MAX_ROWID)%Z
            (ids (Ingest.run calls None)).
Proof. apply well_formed_ids, run_well_formed. exact I. Qed.

(** X6. Runs never remove a row and never change the id or the url of one:
    the (id, url) pairs of the database after any sequence of runs are
    those from before, in the same order, followed by the pairs of the
    rows inserted meanwhile. *)
Theorem id_url_pairs_only_grow
    (calls : list (Ingest.env * string)) (db : Sqlite.database) :
  exists added,
    id_url_pairs (Ingest.run calls db) = (id_url_pairs db ++ added)%list.
Proof.
  revert db. induction calls as [|[w url] calls IH]; intros db;
    cbn [Ingest.run].
  - exists []. now rewrite app_nil_r.
  - destruct (IH (fst (Ingest.ingest w url db))) as (a2 & ->).
    destruct (ingest_pairs w url db) as (a1 & ->).
    exists (a1 ++ a2)%list. now rewrite app_assoc.
Qed.

(** ** Ingestion and the read API together *)

Section ApiMore.
Import Sqlite Api.
Local Open Scope list_scope.
Local Open Scope Z_scope.

Lemma fold_insert_desc_above (r : row) (l acc : list row) :
  (forall x, In x l -> row_id x < row_id r) ->
  fold_right insert_desc (r :: acc) l
  = r :: fold_right insert_desc acc l.
Proof.
  induction l as [|x l IH]; intros H; cbn [fold_right]; [reflexivity|].
  rewrite IH by (intros y Hy; apply H; now right).
  cbn [insert_desc].
  destruct (Z.leb_spec (row_id r) (row_id x)) as [L | G]; [|reflexivity].
  specialize (H x (or_introl eq_refl)). lia.
Qed.

(** A row whose id is above all the others comes first in the listing. *)
Lemma order_by_id_desc_snoc (r : row) (l : list row) :
  (forall x, In x l -> row_id x < row_id r) ->
  order_by_id_desc (l ++ [r]) = r :: order_by_id_desc l.
Proof.
  intros H. unfold order_by_id_desc. rewrite fold_right_app.
  cbn [fold_right insert_desc]. now apply fold_insert_desc_above.
Qed.

Lemma insert_desc_same_key (r r' : row) (l l' : list row) :
  same_key r r' -> Forall2 same_key l l' ->
  Forall2 same_key (insert_desc r l) (insert_desc r' l').
Proof.
  intros K F. induction F as [|x x' l l' Kx F IH]; cbn [insert_desc].
  - constructor; [exact K | constructor].
  - destruct K as [Ki Ku], Kx as [Kxi Kxu]. rewrite <- Ki, <- Kxi.
    destruct (row_id x <=? row_id r).
    + constructor; [split; assumption|]. constructor; [split; assumption|].
      exact F.
    + constructor; [split; assumption | exact IH].
Qed.

Lemma order_by_id_desc_same_key (l l' : list row) :
  Forall2 same_key l l' ->
  Forall2 same_key (order_by_id_desc l) (order_by_id_desc l').
Proof.
  induction 1 as [|x x' l l' K F IH]; cbn [order_by_id_desc fold_right];
    [constructor|].
  now apply insert_desc_same_key.
Qed.

Lemma same_key_refl (l : list row) : Forall2 same_key l l.
Proof. induction l; constructor; [split; reflexivity | assumption]. Qed.

Lemma same_key_keys (l l' : list row) :
  Forall2 same_key l l' ->
  map key_of (map Article_of_row l) = map key_of (map Article_of_row l').
Proof.
  induction 1 as [|x x' l l' [Ki Ku] F IH]; cbn [map]; [reflexivity|].
  rewrite IH. unfold key_of. cbn [Article_of_row id url].
  now rewrite Ki, Ku.
Qed.

End ApiMore.

(** X8. Under the primary key the two endpoints agree: [get_article]
    returns an article for an id exactly when the id fits 64 bits, as every
    id of a table does, and [list_articles] lists that article with that
    id. *)
Theorem get_article_iff_listed
    (s : Sqlite.store) (article_id : Z) (a : Api.Article) :
  NoDup (map Sqlite.row_id (Sqlite.rows s)) ->
  (Api.get_article (Some s) article_id = Ok a
   <-> is_rowid article_id
       /\ exists listed,
            Api.list_articles (Some s) = Ok listed
            /\ In a listed /\ Api.id a = article_id).
Proof.
  intros N.
  destruct ((Sqlite.MIN_ROWID <=? article_id)%Z
            && (article_id <=? Sqlite.MAX_ROWID)%Z) eqn:B.
  - assert (R : is_rowid article_id).
    { apply andb_true_iff in B as [B1 B2]. split; now apply Z.leb_le. }
    rewrite (get_article_in_range _ _ R).
    unfold Api.list_articles, Api.get_db_connection, Sqlite.select_all_desc.
    cbn [bind]. split.
    + destruct (List.find (fun r => (Sqlite.row_id r =? article_id)%Z)
                  (Sqlite.rows s)) as [r|] eqn:F; [|discriminate].
      intros E0. assert (Ea : a = Api.Article_of_row r) by congruence.
      subst a. apply find_some in F as [I E]. apply Z.eqb_eq in E.
      split; [exact R|]. eexists. split; [reflexivity|]. split; [|exact E].
      apply in_map. eapply Permutation_in; [|exact I].
      apply Permutation_sym, order_by_id_desc_perm.
    + intros (_ & listed & E0 & I & E).
      assert (El : listed
                   = map Api.Article_of_row
                       (Sqlite.order_by_id_desc (Sqlite.rows s)))
        by congruence.
      subst listed. apply in_map_iff in I as (r & <- & I).
      apply (Permutation_in _ (order_by_id_desc_perm _)) in I.
      assert (M : In article_id (map Sqlite.row_id (Sqlite.rows s))).
      { apply in_map_iff. exists r. split; [exact E | exact I]. }
      destruct (find_by_id_some _ _ M) as (r' & F & I' & E').
      rewrite F. f_equal. f_equal.
      apply (row_of_id_unique _ _ _ N I' I). cbn in E. congruence.
  - assert (R : ~ is_rowid article_id).
    { intros [L1 L2]. apply Z.leb_le in L1, L2. rewrite L1, L2 in B.
      discriminate. }
    unfold Api.get_article, Api.get_db_connection, Sqlite.select_by_id.
    rewrite B. cbn [bind]. split; [discriminate | tauto].
Qed.

Lemma get_article_iff_listed_witness :
  Api.get_article (Some Sample.filled) 2
  = Ok (Api.mkArticle 2 Sample.url_b Sample.url_b "yesterday "
          "2024-03-01 09:30:00")
  <-> is_rowid 2
      /\ exists listed,
           Api.list_articles (Some Sample.filled) = Ok listed
           /\ In (Api.mkArticle 2 Sample.url_b Sample.url_b "yesterday "
                    "2024-03-01 09:30:00") listed
           /\ 2%Z = 2%Z.
Proof.
  apply (get_article_iff_listed Sample.filled 2
           (Api.mkArticle 2 Sample.url_b Sample.url_b "yesterday "
              "2024-03-01 09:30:00")).
  repeat constructor; cbn; intuition discriminate.
Defined.

(** X9. After a run that succeeded on a url the database did not hold,
    [list_articles] returns the new article first, with the url, the title
    and the date of the run, followed by the listing from before. *)
Theorem new_article_listed_first
    (w : Ingest.env) (url : string) (db db' : Sqlite.database)
    (msg : string) :
  ~ In url (urls db) ->
  Ingest.ingest w url db = (db', Ok msg) ->
  exists i title pub_date before_run,
    Ingest.fetch_article w url = Ok (title, pub_date)
    /\ Api.list_articles (Ingest.init_db db) = Ok before_run
    /\ Api.list_articles db'
       = Ok (Api.mkArticle i url title pub_date
               (Clock.strftime_YmdHMS (Ingest.utcnow_save w))
             :: before_run).
Proof.
  intros Nin I.
  destruct (ingest_ok_rows _ _ _ _ _ I)
    as (t & p & v & F & _ & [(pre & r & post & E1 & E2 & _ & _)
                            | (_ & Fresh & E4)]).
  - exfalso. apply Nin. unfold urls. rewrite E1, map_app.
    apply in_or_app. right. left. exact E2.
  - exists v, t, p. eexists. split; [exact F|].
    destruct (ingest_creates_table w url db) as (s' & Es').
    rewrite I in Es'. cbn [fst] in Es'. subst db'.
    rewrite init_db_some. split; [reflexivity|].
    unfold Api.list_articles, Api.get_db_connection, Sqlite.select_all_desc.
    cbn [bind]. cbn [Sqlite.records] in E4. rewrite E4.
    rewrite order_by_id_desc_snoc.
    + cbn [map]. destruct db; reflexivity.
    + intros x Hx. cbn [Sqlite.row_id]. now apply Fresh.
Qed.

Lemma new_article_listed_first_witness :
  exists i title pub_date before_run,
    Ingest.fetch_article (Sample.serving "foo" Sample.march_5)
      "https://example.com/c" = Ok (title, pub_date)
    /\ Api.list_articles (Ingest.init_db (Some Sample.filled))
       = Ok before_run
    /\ Api.list_articles
         (fst (Ingest.ingest (Sample.serving "foo" Sample.march_5)
                 "https://example.com/c" (Some Sample.filled)))
       = Ok (Api.mkArticle i "https://example.com/c" title pub_date
               (Clock.strftime_YmdHMS Sample.march_5)
             :: before_run).
Proof.
  apply (new_article_listed_first
           (Sample.serving "foo" Sample.march_5) "https://example.com/c"
           (Some Sample.filled) _
           "Fetched 'Foo' published 2024-03-01 and stored in database.").
  - cbn. intuition discriminate.
  - reflexivity.
Defined.

(** X10. A run that succeeded on a url the database already held leaves
    the listing in the same order: [list_articles] returns the same ids
    and urls at the same places as before. *)
Theorem update_keeps_listing_order
    (w : Ingest.env) (url : string) (db db' : Sqlite.database)
    (msg : string) :
  In url (urls db) ->
  Ingest.ingest w url db = (db', Ok msg) ->
  exists before_run after_run,
    Api.list_articles db = Ok before_run
    /\ Api.list_articles db' = Ok after_run
    /\ map key_of after_run = map key_of before_run.
Proof.
  intros Hin I.
  destruct (ingest_ok_rows _ _ _ _ _ I)
    as (t & p & v & F & _ & [(pre & r & post & E1 & E2 & _ & E4)
                            | (Nin & _ & _)]); [|contradiction].
  destruct (ingest_creates_table w url db) as (s' & Es').
  rewrite I in Es'. cbn [fst] in Es'. subst db'.
  destruct db as [s|]; [|destruct Hin].
  do 2 eexists. split; [reflexivity|]. split; [reflexivity|].
  apply same_key_keys, order_by_id_desc_same_key.
  cbn [Sqlite.records] in E1, E4. rewrite E1, E4.
  apply Forall2_app; [apply same_key_refl|].
  constructor; [|apply same_key_refl].
  split; [reflexivity|]. cbn [Sqlite.row_url]. now rewrite E2.
Qed.

Lemma update_keeps_listing_order_witness :
  exists before_run after_run,
    Api.list_articles (Some Sample.filled) = Ok before_run
    /\ Api.list_articles
         (fst (Ingest.ingest (Sample.serving "foo" Sample.march_5)
                 Sample.url_a (Some Sample.filled)))
       = Ok after_run
    /\ map key_of after_run = map key_of before_run.
Proof.
  apply (update_keeps_listing_order
           (Sample.serving "foo" Sample.march_5) Sample.url_a
           (Some Sample.filled) _
           "Fetched 'Foo' published 2024-03-01 and stored in database.").
  - left. reflexivity.
  - reflexivity.
Defined.

(** ** [alert.py] *)

Section IntStr.
Import Alert.

Lemma lstrip_app (l t : string) :
  Str.all_space l = true -> Str.lstrip (l ++ t) = Str.lstrip t.
Proof.
  induction l as [|c l IH]; cbn [append Str.all_space Str.lstrip];
    [reflexivity|].
  intros H. apply andb_true_iff in H as [Hc Hl]. rewrite Hc. auto.
Qed.

Lemma lstrip_fixed (t : string) :
  Str.starts_with_space t = false -> Str.lstrip t = t.
Proof.
  destruct t as [|c t]; cbn [Str.starts_with_space Str.lstrip];
    [reflexivity|].
  now intros ->.
Qed.

Lemma rstrip_all_space (r : string) :
  Str.all_space r = true -> Str.rstrip r = "".
Proof.
  induction r as [|c r IH]; cbn [Str.all_space Str.rstrip]; [reflexivity|].
  intros H. apply andb_true_iff in H as [Hc Hr]. now rewrite IH, Hc.
Qed.

Lemma ends_with_space_cons (c c' : ascii) (s : string) :
  Str.ends_with_space (String c (String c' s))
  = Str.ends_with_space (String c' s).
Proof. reflexivity. Qed.

Lemma rstrip_app (s r : string) :
  Str.ends_with_space s = false -> Str.all_space r = true ->
  Str.rstrip (s ++ r) = s.
Proof.
  intros He Hr. induction s as [|c s IH]; cbn [append].
  - now apply rstrip_all_space.
  - cbn [Str.rstrip]. destruct s as [|c' s].
    + cbn [append]. rewrite (rstrip_all_space _ Hr).
      cbn [Str.ends_with_space] in He. now rewrite He.
    + rewrite ends_with_space_cons in He. rewrite (IH He). reflexivity.
Qed.

(** [strip] returns what the whitespace surrounds. *)
Lemma strip_surrounded (l s r : string) :
  Str.all_space l = true -> Str.all_space r = true ->
  Str.starts_with_space s = false -> Str.ends_with_space s = false ->
  Str.strip (l ++ s ++ r) = s.
Proof.
  intros Hl Hr Hs He. unfold Str.strip. rewrite (lstrip_app _ _ Hl).
  destruct s as [|c s].
  - cbn [append]. now rewrite (all_space_lstrip _ Hr).
  - rewrite lstrip_fixed by exact Hs. now apply rstrip_app.
Qed.

Lemma strip_fixed (s : string) :
  Str.starts_with_space s = false -> Str.ends_with_space s = false ->
  Str.strip s = s.
Proof.
  intros Hs He.
  pose proof (strip_surrounded "" s "" eq_refl eq_refl Hs He) as K.
  cbn [append] in K. now rewrite append_empty_r in K.
Qed.

Lemma digits_head (d : Decimal.uint) :
  d <> Decimal.Nil ->
  exists c rest,
    NilEmpty.string_of_uint d = String c rest
    /\ Ascii.eqb c "_" = false /\ Ascii.eqb c "-" = false
    /\ Ascii.eqb c "+" = false /\ Str.isspace c = false.
Proof.
  destruct d; intros H; [congruence|..]; do 2 eexists;
    (split; [reflexivity | repeat split]).
Qed.

Lemma digits_no_space_end (d : Decimal.uint) :
  Str.ends_with_space (NilEmpty.string_of_uint d) = false.
Proof.
  induction d as [|d IH|d IH|d IH|d IH|d IH|d IH|d IH|d IH|d IH|d IH];
    [reflexivity|..];
    cbn [NilEmpty.string_of_uint];
    (destruct (NilEmpty.string_of_uint d) as [|c' s'];
     [reflexivity | rewrite ends_with_space_cons; exact IH]).
Qed.

(** The digits [str] prints are read back as they are. *)
Lemma int_digits_printed (d : Decimal.uint) :
  d <> Decimal.Nil -> int_digits (NilEmpty.string_of_uint d) = Some d.
Proof.
  induction d as [|d IH|d IH|d IH|d IH|d IH|d IH|d IH|d IH|d IH|d IH];
    intros H; [congruence|..];
    cbn [NilEmpty.string_of_uint int_digits];
    (match goal with
     | |- context [digit_of ?c] =>
         let v := eval cbv in (digit_of c) in
         change (digit_of c) with v
     end);
    cbv iota beta;
    (destruct d as [|d'|d'|d'|d'|d'|d'|d'|d'|d'|d'];
     [reflexivity|..];
     (match goal with
      | |- context [NilEmpty.string_of_uint ?t] =>
          destruct (digits_head t ltac:(discriminate))
            as (c & rest & E & U & _);
          rewrite E; rewrite E in IH; rewrite U;
          rewrite (IH ltac:(discriminate)); reflexivity
      end)).
Qed.

Lemma of_uint_acc_lower (l : Decimal.uint) : forall acc,
  (Z.pos acc * 10 ^ Z.of_nat (Decimal.nb_digits l)
   <= Z.pos (Pos.of_uint_acc l acc))%Z.
Proof.
  induction l as [|l IH|l IH|l IH|l IH|l IH|l IH|l IH|l IH|l IH|l IH];
    intros acc;
    [cbn; lia|..];
    cbn [Decimal.nb_digits Pos.of_uint_acc];
    rewrite Nat2Z.inj_succ, Z.pow_succ_r, Z.mul_assoc by lia;
    (eapply Z.le_trans; [|apply IH]);
    apply Z.mul_le_mono_nonneg_r; try (apply Z.pow_nonneg; lia);
    lia.
Qed.

(** A positive number is printed without a leading zero. *)
Lemma to_uint_no_leading_zero (p : positive) (l : Decimal.uint) :
  Pos.to_uint p <> Decimal.D0 l.
Proof.
  intros E.
  assert (U : Decimal.unorm (Pos.to_uint p) = Pos.to_uint p).
  { rewrite <- DecimalPos.Unsigned.to_of, DecimalPos.Unsigned.of_to.
    reflexivity. }
  rewrite E in U. unfold Decimal.unorm in U. cbn [Decimal.nzhead] in U.
  pose proof (DecimalFacts.nb_digits_nzhead l) as L.
  destruct (Decimal.nzhead l) eqn:Z0.
  - injection U as <-.
    apply (DecimalPos.Unsigned.to_uint_nonzero p). exact E.
  - rewrite U in L. cbn [Decimal.nb_digits] in L. lia.
  - discriminate.
  - discriminate.
  - discriminate.
  - discriminate.
  - discriminate.
  - discriminate.
  - discriminate.
  - discriminate.
  - discriminate.
Qed.

(** The digits of a rowid stay far below the limit of [int]. *)
Lemma rowid_digits (p : positive) :
  (Z.pos p <= 9223372036854775808)%Z ->
  (Decimal.nb_digits (Pos.to_uint p) <= int_max_str_digits)%nat.
Proof.
  intros B. pose proof (DecimalPos.Unsigned.of_to p) as E.
  destruct (Pos.to_uint p) as [|l|l|l|l|l|l|l|l|l|l] eqn:D;
    [cbn; unfold int_max_str_digits; lia
    |exfalso; exact (to_uint_no_leading_zero p l D)|..];
    cbn [Pos.of_uint] in E; injection E as E;
    pose proof (of_uint_acc_lower l) as K;
    match type of E with
    | Pos.of_uint_acc l ?acc = p => specialize (K acc)
    end;
    rewrite E in K; cbn [Decimal.nb_digits]; unfold int_max_str_digits;
    (destruct (Nat.le_gt_cases (Decimal.nb_digits l) 19) as [Le | Gt];
     [lia|]);
    exfalso;
    assert (P : (10 ^ 20 <= 10 ^ Z.of_nat (Decimal.nb_digits l))%Z)
      by (apply Z.pow_le_mono_r; lia);
    assert (V : (10 ^ 20 = 100000000000000000000)%Z) by reflexivity;
    nia.
Qed.

Lemma digits_value_printed (p : positive) :
  (Z.pos p <= 9223372036854775808)%Z ->
  digits_value (NilEmpty.string_of_uint (Pos.to_uint p)) = Some (Z.pos p).
Proof.
  intros B. unfold digits_value.
  rewrite (int_digits_printed _ (DecimalPos.Unsigned.to_uint_nonnil p)).
  pose proof (rowid_digits p B) as L. apply Nat.leb_le in L. rewrite L.
  unfold Z.of_uint. now rewrite DecimalPos.Unsigned.of_to.
Qed.

Lemma int_str (n : Z) : is_rowid n -> int (str n) = Some n.
Proof.
  intros [R1 R2]. unfold Sqlite.MIN_ROWID, Sqlite.MAX_ROWID in *.
  unfold int, str. destruct n as [|p|p]; [reflexivity|..];
    cbn [Z.to_int NilZero.string_of_int].
  - assert (Nn := DecimalPos.Unsigned.to_uint_nonnil p).
    assert (S : NilZero.string_of_uint (Pos.to_uint p)
                = NilEmpty.string_of_uint (Pos.to_uint p)).
    { destruct (Pos.to_uint p); [congruence | reflexivity..]. }
    rewrite S.
    destruct (digits_head _ Nn) as (c & rest & E & _ & M & P & Sp).
    rewrite strip_fixed.
    + rewrite E, M, P, <- E. apply digits_value_printed. lia.
    + rewrite E. exact Sp.
    + apply digits_no_space_end.
  - assert (Nn := DecimalPos.Unsigned.to_uint_nonnil p).
    assert (S : NilZero.string_of_uint (Pos.to_uint p)
                = NilEmpty.string_of_uint (Pos.to_uint p)).
    { destruct (Pos.to_uint p); [congruence | reflexivity..]. }
    rewrite S.
    destruct (digits_head _ Nn) as (c & rest & E & _ & _ & _ & _).
    rewrite strip_fixed.
    + change (Ascii.eqb "-" "-") with true. cbv iota.
      rewrite digits_value_printed by lia. reflexivity.
    + reflexivity.
    + rewrite E, ends_with_space_cons, <- E. apply digits_no_space_end.
Qed.

(** [str] prints nothing that [strip] would remove. *)
Lemma str_trimmed (n : Z) :
  Str.starts_with_space (str n) = false
  /\ Str.ends_with_space (str n) = false.
Proof.
  unfold str. destruct n as [|p|p]; [split; reflexivity|..];
    cbn [Z.to_int NilZero.string_of_int];
    assert (Nn := DecimalPos.Unsigned.to_uint_nonnil p);
    assert (S : NilZero.string_of_uint (Pos.to_uint p)
                = NilEmpty.string_of_uint (Pos.to_uint p))
      by (destruct (Pos.to_uint p); [congruence | reflexivity..]);
    rewrite S;
    destruct (digits_head _ Nn) as (c & rest & E & _ & _ & _ & Sp).
  - split; [rewrite E; exact Sp | apply digits_no_space_end].
  - split; [reflexivity|].
    rewrite E, ends_with_space_cons, <- E. apply digits_no_space_end.
Qed.

(** The id written to the state file is the id read from it. *)
Lemma get_set_last_alerted_id (n : Z) :
  is_rowid n -> get_last_alerted_id (set_last_alerted_id n) = n.
Proof.
  intros R. unfold get_last_alerted_id, set_last_alerted_id.
  destruct (str_trimmed n) as [Hs He].
  rewrite (strip_fixed _ Hs He). now rewrite int_str.
Qed.

End IntStr.

Section AlertFacts.
Import Sqlite Alert.
Local Open Scope list_scope.
Local Open Scope Z_scope.

Lemma insert_asc_perm (r : row) (l : list row) :
  Permutation (insert_asc r l) (r :: l).
Proof.
  induction l as [|x l IH]; cbn [insert_asc]; [apply Permutation_refl|].
  destruct (row_id r <=? row_id x); [apply Permutation_refl|].
  eapply perm_trans; [apply perm_skip, IH | apply perm_swap].
Qed.

Lemma order_by_id_perm (rs : list row) : Permutation (order_by_id rs) rs.
Proof.
  induction rs as [|r rs IH]; cbn [order_by_id fold_right]; [constructor|].
  eapply perm_trans; [apply insert_asc_perm | now apply perm_skip].
Qed.

Lemma insert_asc_sorted (r : row) (l : list row) :
  StronglySorted not_after l -> StronglySorted not_after (insert_asc r l).
Proof.
  induction 1 as [|x l S IH F]; cbn [insert_asc].
  - repeat constructor.
  - destruct (Z.leb_spec (row_id r) (row_id x)) as [L | G].
    + constructor; [now constructor|]. constructor; [exact L|].
      eapply Forall_impl; [|exact F]. unfold not_after. intros; lia.
    + constructor; [exact IH|].
      eapply Permutation_Forall;
        [apply Permutation_sym, insert_asc_perm|].
      constructor; [unfold not_after; lia | exact F].
Qed.

Lemma order_by_id_sorted (rs : list row) :
  StronglySorted not_after (order_by_id rs).
Proof.
  induction rs as [|r rs IH]; cbn [order_by_id fold_right]; [constructor|].
  now apply insert_asc_sorted.
Qed.

(** Rows that already ascend by id are left as they are. *)
Lemma order_by_id_ascending (rs : list row) :
  StronglySorted Z.lt (map row_id rs) -> order_by_id rs = rs.
Proof.
  induction rs as [|r rs IH]; cbn [map]; [reflexivity|].
  intros S. apply StronglySorted_inv in S as [S F].
  cbn [order_by_id fold_right]. fold (order_by_id rs). rewrite (IH S).
  destruct rs as [|x rs]; [reflexivity|]. cbn [insert_asc map] in *.
  apply Forall_inv in F.
  destruct (Z.leb_spec (row_id r) (row_id x)); [reflexivity | lia].
Qed.

Lemma filter_ascending (p : row -> bool) (rs : list row) :
  StronglySorted Z.lt (map row_id rs) ->
  StronglySorted Z.lt (map row_id (filter p rs)).
Proof.
  induction rs as [|r rs IH]; cbn [map filter]; [constructor|].
  intros S. apply StronglySorted_inv in S as [S F].
  destruct (p r); [|now apply IH]. cbn [map]. constructor; [now apply IH|].
  rewrite Forall_forall in *. intros i Hi. apply F.
  apply in_map_iff in Hi as (x & <- & Hx). apply filter_In in Hx as [Hx _].
  now apply in_map.
Qed.

(** The loop prints one line per row and leaves the id of the last row in
    the state file. *)
Lemma alert_loop_spec (rows : list (Z * string)) : forall f out,
  alert_loop rows f out
  = (match rows with
     | [] => f
     | _ :: _ => set_last_alerted_id (fst (last rows (0, ""%string)))
     end,
     out ++ map alert_line rows).
Proof.
  induction rows as [|row rows IH]; intros f out; cbn [alert_loop].
  - now rewrite app_nil_r.
  - rewrite IH. cbn [map]. rewrite <- app_assoc. cbn [app].
    destruct rows; reflexivity.
Qed.

Lemma last_map_fst (rs : list row) (d : row) :
  fst (last (map (fun r => (row_id r, row_title r)) rs)
            (row_id d, row_title d))
  = row_id (last rs d).
Proof.
  induction rs as [|r rs IH]; [reflexivity|].
  cbn [map]. destruct rs as [|x rs]; [reflexivity|]. exact IH.
Qed.

Lemma last_default_irrelevant (A : Type) (l : list A) (d d' : A) :
  l <> [] -> last l d = last l d'.
Proof.
  induction l as [|x l IH]; [congruence|]. intros _.
  destruct l as [|y l]; [reflexivity|]. apply IH. discriminate.
Qed.

(** What the alert script does on a database that holds the table, for a
    stored id that is a 64-bit integer. *)
Lemma check_for_new_articles_spec (s : store) (f : state_file) :
  is_rowid (get_last_alerted_id f) ->
  check_for_new_articles (Some s) f
  = match order_by_id (newer_than (get_last_alerted_id f) (rows s)) with
    | [] => (f, Printed nothing_new)
    | r :: rs =>
        (set_last_alerted_id (row_id (last (r :: rs) no_row)),
         Printed (map (fun x => alert_line (row_id x, row_title x))
                      (r :: rs)))
    end.
Proof.
  intros [L1 L2]. unfold check_for_new_articles, select_new.
  apply Z.leb_le in L1, L2. rewrite L1, L2. cbn [andb].
  fold (newer_than (get_last_alerted_id f) (rows s)).
  destruct (order_by_id (newer_than (get_last_alerted_id f) (rows s)))
    as [|r rs]; [reflexivity|].
  cbn [map]. rewrite alert_loop_spec. cbn [app]. f_equal.
  - f_equal. exact (last_map_fst (r :: rs) no_row).
  - f_equal. exact (map_map _ _ (r :: rs)).
Qed.

Lemma sorted_last_max (l : list row) (x d : row) :
  StronglySorted not_after l -> In x l -> row_id x <= row_id (last l d).
Proof.
  induction 1 as [|y l S IH F]; [intros []|].
  intros [-> | H].
  - destruct l as [|z l]; [cbn; lia|].
    change (last (x :: z :: l) d) with (last (z :: l) d).
    rewrite Forall_forall in F.
    assert (K : In (last (z :: l) d) (z :: l)).
    { clear. revert z. induction l as [|a l IH]; intros z; [now left|].
      right. apply IH. }
    apply (F _ K).
  - destruct l as [|z l]; [destruct H|].
    change (last (y :: z :: l) d) with (last (z :: l) d). now apply IH.
Qed.

Lemma last_in (A : Type) (l : list A) (d : A) : l <> [] -> In (last l d) l.
Proof.
  induction l as [|x l IH]; [congruence|]. intros _.
  destruct l as [|y l]; [now left|]. right. apply IH. discriminate.
Qed.

(** After a run of the alert script the stored id is a rowid again and no
    row of the table has a greater id; it is the old one or an id of the
    table. *)
Lemma check_covers (s : store) (f : state_file) :
  is_rowid (get_last_alerted_id f) ->
  Forall is_rowid (map row_id (rows s)) ->
  let f1 := fst (check_for_new_articles (Some s) f) in
  (forall i, In i (map row_id (rows s)) -> i <= get_last_alerted_id f1)
  /\ (get_last_alerted_id f1 = get_last_alerted_id f
      \/ In (get_last_alerted_id f1) (map row_id (rows s)))
  /\ get_last_alerted_id f <= get_last_alerted_id f1.
Proof.
  intros R Fr. cbn zeta. rewrite (check_for_new_articles_spec _ _ R).
  pose proof (order_by_id_perm
                (newer_than (get_last_alerted_id f) (rows s))) as P.
  pose proof (order_by_id_sorted
                (newer_than (get_last_alerted_id f) (rows s))) as So.
  destruct (order_by_id (newer_than (get_last_alerted_id f) (rows s)))
    as [|r rs] eqn:E; cbn [fst].
  - split; [|split; [now left | lia]].
    intros i Hi. apply in_map_iff in Hi as (x & <- & Hx).
    destruct (Z.ltb_spec (get_last_alerted_id f) (row_id x)) as [G | L];
      [|exact L].
    exfalso. apply Permutation_nil in P.
    assert (K : In x (newer_than (get_last_alerted_id f) (rows s))).
    { apply filter_In. split; [exact Hx | now apply Z.ltb_lt]. }
    rewrite P in K. destruct K.
  - assert (Hl : In (last (r :: rs) no_row)
                    (newer_than (get_last_alerted_id f) (rows s))).
    { eapply Permutation_in; [exact P|]. apply last_in. discriminate. }
    apply filter_In in Hl as [Hl1 Hl2]. apply Z.ltb_lt in Hl2.
    rewrite get_set_last_alerted_id
      by (rewrite Forall_forall in Fr; apply Fr; now apply in_map).
    split; [|split; [right; now apply in_map | lia]].
    intros i Hi. apply in_map_iff in Hi as (x & <- & Hx).
    destruct (Z.ltb_spec (get_last_alerted_id f) (row_id x)) as [G | L];
      [|lia].
    apply sorted_last_max; [exact So|].
    eapply Permutation_in; [apply Permutation_sym, P|].
    apply filter_In. split; [exact Hx | now apply Z.ltb_lt].
Qed.

(** When no row has an id above the stored one, the script prints the
    single line and leaves the state file alone. *)
Lemma check_quiet (s : store) (f : state_file) :
  is_rowid (get_last_alerted_id f) ->
  (forall i, In i (map row_id (rows s)) -> i <= get_last_alerted_id f) ->
  check_for_new_articles (Some s) f = (f, Printed nothing_new).
Proof.
  intros R H. rewrite (check_for_new_articles_spec _ _ R).
  assert (E : newer_than (get_last_alerted_id f) (rows s) = []).
  { unfold newer_than. induction (rows s) as [|x l IH]; [reflexivity|].
    cbn [filter map] in *.
    destruct (Z.ltb_spec (get_last_alerted_id f) (row_id x)) as [G | L].
    - specialize (H (row_id x) (or_introl eq_refl)). lia.
    - apply IH. intros i Hi. apply H. now right. }
  now rewrite E.
Qed.

Lemma covered_is_rowid (s : store) (f : state_file) :
  is_rowid (get_last_alerted_id f) ->
  Forall is_rowid (map row_id (rows s)) ->
  is_rowid (get_last_alerted_id (fst (check_for_new_articles (Some s) f))).
Proof.
  intros R F. destruct (check_covers s f R F) as (_ & [-> | H] & _);
    [exact R|].
  rewrite Forall_forall in F. now apply F.
Qed.

End AlertFacts.

(** X11. The state file round trip: [get_last_alerted_id] reads back the
    rowid that [set_last_alerted_id] wrote, and also the rowid in a file
    written by hand with whitespace (a final newline, say) around it. *)
Theorem state_file_round_trip (n : Z) (l r : string) :
  is_rowid n ->
  Str.all_space l = true -> Str.all_space r = true ->
  Alert.get_last_alerted_id (Alert.set_last_alerted_id n) = n
  /\ Alert.get_last_alerted_id (Some (l ++ Alert.str n ++ r)) = n.
Proof.
  intros R Hl Hr. split; [now apply get_set_last_alerted_id|].
  unfold Alert.get_last_alerted_id. destruct (str_trimmed n) as [Hs He].
  rewrite (strip_surrounded _ _ _ Hl Hr Hs He). now rewrite int_str.
Qed.

Lemma state_file_round_trip_witness :
  Alert.get_last_alerted_id (Alert.set_last_alerted_id 42) = 42%Z
  /\ Alert.get_last_alerted_id
       (Some (" " ++ Alert.str 42 ++ Sample.newline)) = 42%Z.
Proof.
  apply (state_file_round_trip 42 " " Sample.newline).
  - split; vm_compute; discriminate.
  - reflexivity.
  - reflexivity.
Defined.

(** X12. On a database that holds the table, and with a stored id that is
    a 64-bit integer, the alert script reports exactly the rows whose id is
    above the stored id, each once and in ascending order of id, and
    leaves the id of the last of them in the state file; when there is no
    such row it prints the single line and does not touch the file. *)
Theorem check_reports_each_new_row (s : Sqlite.store) (f : Alert.state_file) :
  is_rowid (Alert.get_last_alerted_id f) ->
  exists new,
    Permutation new
      (newer_than (Alert.get_last_alerted_id f) (Sqlite.rows s))
    /\ StronglySorted not_after new
    /\ Alert.check_for_new_articles (Some s) f
       = match new with
         | [] => (f, Alert.Printed nothing_new)
         | _ :: _ =>
             (Alert.set_last_alerted_id (Sqlite.row_id (last new no_row)),
              Alert.Printed
                (map (fun x =>
                        Alert.alert_line (Sqlite.row_id x, Sqlite.row_title x))
                     new))
         end.
Proof.
  intros R.
  exists (Alert.order_by_id
            (newer_than (Alert.get_last_alerted_id f) (Sqlite.rows s))).
  split; [apply order_by_id_perm|]. split; [apply order_by_id_sorted|].
  rewrite (check_for_new_articles_spec _ _ R).
  now destruct (Alert.order_by_id
                  (newer_than (Alert.get_last_alerted_id f) (Sqlite.rows s))).
Qed.

Lemma check_reports_each_new_row_witness :
  exists new,
    Permutation new (newer_than 1 (Sqlite.rows Sample.filled))
    /\ StronglySorted not_after new
    /\ Alert.check_for_new_articles (Some Sample.filled) (Some "1")
       = match new with
         | [] => (Some "1", Alert.Printed nothing_new)
         | _ :: _ =>
             (Alert.set_last_alerted_id (Sqlite.row_id (last new no_row)),
              Alert.Printed
                (map (fun x =>
                        Alert.alert_line (Sqlite.row_id x, Sqlite.row_title x))
                     new))
         end.
Proof.
  apply (check_reports_each_new_row Sample.filled (Some "1")).
  split; vm_compute; discriminate.
Defined.

(** X13. Running the alert script twice in a row reports nothing the
    second time: the second run prints the single line and leaves the
    state file as the first run left it. *)
Theorem check_twice_is_quiet (s : Sqlite.store) (f : Alert.state_file) :
  is_rowid (Alert.get_last_alerted_id f) ->
  Forall is_rowid (map Sqlite.row_id (Sqlite.rows s)) ->
  Alert.check_for_new_articles (Some s)
    (fst (Alert.check_for_new_articles (Some s) f))
  = (fst (Alert.check_for_new_articles (Some s) f),
     Alert.Printed nothing_new).
Proof.
  intros R F. apply check_quiet.
  - now apply covered_is_rowid.
  - apply (check_covers s f R F).
Qed.

Lemma check_twice_is_quiet_witness :
  Alert.check_for_new_articles (Some Sample.filled)
    (fst (Alert.check_for_new_articles (Some Sample.filled) None))
  = (fst (Alert.check_for_new_articles (Some Sample.filled) None),
     Alert.Printed nothing_new).
Proof.
  apply (check_twice_is_quiet Sample.filled None).
  - split; vm_compute; discriminate.
  - repeat constructor; vm_compute; discriminate.
Defined.

(** X14. Ingesting again a url that is already stored raises no alert:
    after a run of the alert script and then a run of the ingestion that
    succeeded on a stored url, the next run of the alert script prints the
    single line and leaves the state file alone. *)
Theorem update_triggers_no_alert
    (s : Sqlite.store) (f : Alert.state_file)
    (w : Ingest.env) (url : string) (db' : Sqlite.database) (msg : string) :
  is_rowid (Alert.get_last_alerted_id f) ->
  Forall is_rowid (map Sqlite.row_id (Sqlite.rows s)) ->
  In url (urls (Some s)) ->
  Ingest.ingest w url (Some s) = (db', Ok msg) ->
  Alert.check_for_new_articles db'
    (fst (Alert.check_for_new_articles (Some s) f))
  = (fst (Alert.check_for_new_articles (Some s) f),
     Alert.Printed nothing_new).
Proof.
  intros R F Hin I.
  destruct (ingest_ok_rows _ _ _ _ _ I)
    as (t & p & v & _ & _ & [(pre & r & post & E1 & E2 & _ & E4)
                            | (Nin & _ & _)]); [|contradiction].
  destruct (ingest_creates_table w url (Some s)) as (s' & Es').
  rewrite I in Es'. cbn [fst] in Es'. subst db'.
  cbn [Sqlite.records] in E1, E4.
  assert (Ids : map Sqlite.row_id (Sqlite.rows s')
                = map Sqlite.row_id (Sqlite.rows s)).
  { rewrite E1, E4, !map_app. reflexivity. }
  apply check_quiet.
  - now apply covered_is_rowid.
  - rewrite Ids. apply (check_covers s f R F).
Qed.

Lemma update_triggers_no_alert_witness :
  Alert.check_for_new_articles
    (fst (Ingest.ingest (Sample.serving "foo" Sample.march_5) Sample.url_a
            (Some Sample.filled)))
    (fst (Alert.check_for_new_articles (Some Sample.filled) None))
  = (fst (Alert.check_for_new_articles (Some Sample.filled) None),
     Alert.Printed nothing_new).
Proof.
  apply (update_triggers_no_alert Sample.filled None
           (Sample.serving "foo" Sample.march_5) Sample.url_a _
           "Fetched 'Foo' published 2024-03-01 and stored in database.").
  - split; vm_compute; discriminate.
  - repeat constructor; vm_compute; discriminate.
  - left. reflexivity.
  - reflexivity.
Defined.

(** ** The two scripts on the same files *)

Section TwoScripts.
Import Sqlite Alert.
Local Open Scope list_scope.
Local Open Scope Z_scope.

Lemma consistent_rowid (fs : files) :
  consistent fs ->
  is_rowid (watermark fs)
  /\ Forall is_rowid (ids (data_db fs))
  /\ StronglySorted Z.lt (ids (data_db fs)).
Proof.
  intros [W K]. destruct (well_formed_ids _ W) as [So B].
  assert (F : Forall is_rowid (ids (data_db fs))).
  { eapply Forall_impl; [|exact B]. cbn beta. unfold is_rowid, MIN_ROWID.
    intros; lia. }
  split; [|split; assumption].
  destruct K as [-> | K].
  - unfold is_rowid, MIN_ROWID, MAX_ROWID. lia.
  - rewrite Forall_forall in F. now apply F.
Qed.

Lemma sorted_split (w : Z) (l : list Z) :
  StronglySorted Z.lt l ->
  filter (fun i => i <=? w) l ++ filter (fun i => w <? i) l = l.
Proof.
  induction 1 as [|x l S IH F]; cbn [filter]; [reflexivity|].
  destruct (Z.leb_spec x w) as [L | G], (Z.ltb_spec w x) as [L' | G'];
    try lia.
  - cbn [app]. now rewrite IH.
  - rewrite Forall_forall in F.
    assert (E1 : filter (fun i => i <=? w) l = []).
    { clear IH S. induction l as [|y l IHl]; [reflexivity|]. cbn [filter].
      destruct (Z.leb_spec y w) as [Ly | Gy].
      - specialize (F y (or_introl eq_refl)). lia.
      - apply IHl. intros z Hz. apply F. now right. }
    rewrite E1 in *. cbn [app] in *. now rewrite IH.
Qed.

Lemma filter_covered (w : Z) (l : list Z) :
  (forall i, In i l -> i <= w) -> filter (fun i => i <=? w) l = l.
Proof.
  induction l as [|x l IH]; intros H; cbn [filter]; [reflexivity|].
  destruct (Z.leb_spec x w) as [L | G].
  - rewrite IH; [reflexivity|]. intros i Hi. apply H. now right.
  - specialize (H x (or_introl eq_refl)). lia.
Qed.

Lemma filter_map_id (p : Z -> bool) (rs : list row) :
  map row_id (filter (fun r => p (row_id r)) rs)
  = filter p (map row_id rs).
Proof.
  induction rs as [|r rs IH]; cbn [filter map]; [reflexivity|].
  destruct (p (row_id r)); cbn [map]; now rewrite IH.
Qed.

(** What a run of the alert script reports: the ids above the stored one,
    in the order of the table. *)
Lemma reported_ids (fs : files) :
  consistent fs ->
  map fst (reported fs)
  = filter (fun i => watermark fs <? i) (ids (data_db fs)).
Proof.
  intros C. destruct (consistent_rowid _ C) as ([L1 L2] & _ & So).
  unfold reported, select_new, ids in *. fold (watermark fs).
  destruct (data_db fs) as [s|]; [|reflexivity]. cbn [records] in *.
  apply Z.leb_le in L1, L2. rewrite L1, L2. cbn [andb].
  rewrite order_by_id_ascending by now apply filter_ascending.
  rewrite map_map. cbn [fst].
  apply (filter_map_id (fun i => watermark fs <? i)).
Qed.

Lemma step_alert (fs : files) :
  consistent fs ->
  consistent (step RunAlert fs)
  /\ already_reported (step RunAlert fs)
     = already_reported fs ++ map fst (reported fs)
  /\ already_reported (step RunAlert fs) = ids (data_db fs).
Proof.
  intros C. destruct (consistent_rowid _ C) as (R & F & So).
  rewrite (reported_ids _ C). destruct C as [W K].
  unfold consistent, already_reported, watermark, ids in *.
  cbn [step data_db alert_state].
  destruct (data_db fs) as [s|] eqn:D; cbn [records] in *.
  - destruct (check_covers s (alert_state fs) R F) as (Cov & Or & Mono).
    cbn zeta in *.
    assert (E : filter
                  (fun i => i <=? get_last_alerted_id
                                    (fst (check_for_new_articles (Some s)
                                            (alert_state fs))))
                  (map row_id (rows s)) = map row_id (rows s))
      by now apply filter_covered.
    split; [|split].
    + split; [exact W|]. cbn [records].
      destruct Or as [-> | H]; [exact K | now right].
    + rewrite E. symmetry. now apply sorted_split.
    + exact E.
  - split; [|split]; try reflexivity. split; [exact W | exact K].
Qed.

Lemma step_ingest (w : Ingest.env) (url : string) (fs : files) :
  consistent fs ->
  consistent (step (RunIngest w url) fs)
  /\ already_reported (step (RunIngest w url) fs) = already_reported fs.
Proof.
  intros C. destruct (consistent_rowid _ C) as (R & F & So).
  destruct C as [W K].
  pose proof (ingest_well_formed w url _ W) as W'.
  destruct (well_formed_ids _ W') as [_ B'].
  unfold consistent, already_reported, watermark in *.
  cbn [step data_db alert_state].
  destruct (Ingest.ingest w url (data_db fs)) as [db' [msg|e]] eqn:I;
    cbn [fst] in *.
  - destruct (ingest_ok_rows _ _ _ _ _ I)
      as (t & p & v & _ & _ & [(pre & r & post & E1 & E2 & _ & E4)
                              | (Nin & Fresh & E4)]).
    + assert (Ids : ids db' = ids (data_db fs)).
      { unfold ids. rewrite E1, E4, !map_app. reflexivity. }
      rewrite Ids. split; [split; [exact W' | exact K] | reflexivity].
    + assert (Ids : ids db' = ids (data_db fs) ++ [v]).
      { unfold ids. rewrite E4, map_app. reflexivity. }
      rewrite Ids in *. split.
      * split; [exact W'|]. destruct K as [K | K]; [now left | right].
        apply in_or_app. now left.
      * rewrite filter_app. cbn [filter].
        assert (G : get_last_alerted_id (alert_state fs) < v).
        { destruct K as [-> | K].
          - apply Forall_app in B' as [_ B']. apply Forall_inv in B'. lia.
          - unfold ids in K. apply in_map_iff in K as (x & <- & Hx).
            now apply Fresh. }
        destruct (Z.leb_spec v (get_last_alerted_id (alert_state fs)));
          [lia | apply app_nil_r].
  - assert (Kd : snd (Ingest.ingest w url (data_db fs)) = Raise e)
      by now rewrite I.
    apply ingest_raise_db in Kd. rewrite I in Kd. cbn [fst] in Kd.
    assert (Ids : ids db' = ids (data_db fs)).
    { unfold ids. now rewrite Kd, records_init_db. }
    rewrite Ids. split; [split; [exact W' | exact K] | reflexivity].
Qed.

Lemma run_ops_app (ops1 ops2 : list op) : forall fs,
  run_ops (ops1 ++ ops2) fs = run_ops ops2 (run_ops ops1 fs).
Proof.
  induction ops1 as [|o ops1 IH]; intros fs; cbn [app run_ops];
    [reflexivity | apply IH].
Qed.

Lemma run_ops_consistent (ops : list op) : forall fs,
  consistent fs -> consistent (run_ops ops fs).
Proof.
  induction ops as [|o ops IH]; intros fs C; cbn [run_ops]; [exact C|].
  apply IH. destruct o as [w url|].
  - now apply step_ingest.
  - now apply step_alert.
Qed.

(** Along any sequence of runs the ids reported are those that pass below
    the stored id. *)
Lemma all_reported_spec (ops : list op) : forall fs,
  consistent fs ->
  already_reported (run_ops ops fs)
  = already_reported fs ++ map fst (all_reported ops fs).
Proof.
  induction ops as [|o ops IH]; intros fs C; cbn [run_ops all_reported].
  - now rewrite app_nil_r.
  - destruct o as [w url|].
    + destruct (step_ingest w url fs C) as [C' E].
      now rewrite (IH _ C'), E.
    + destruct (step_alert fs C) as (C' & E & _).
      rewrite (IH _ C'), E, map_app. now rewrite app_assoc.
Qed.

Lemma fresh_consistent : consistent fresh.
Proof. split; [exact I | now left]. Qed.

Lemma StronglySorted_lt_NoDup (l : list Z) :
  StronglySorted Z.lt l -> NoDup l.
Proof.
  induction 1 as [|x l S IH F]; constructor; [|exact IH].
  intros H. rewrite Forall_forall in F. specialize (F x H). lia.
Qed.

End TwoScripts.

Section Transcript.
Import Sqlite Alert.
Local Open Scope list_scope.

Lemma alerts_in_alert_lines (rows : list (Z * string)) :
  alerts_in (map alert_line rows) = map alert_line rows.
Proof.
  induction rows as [|[i t] rows IH]; [reflexivity|].
  cbn [map]. unfold alerts_in in *. cbn [filter].
  replace (String.eqb (alert_line (i, t))
             "No new articles since last check.") with false
    by reflexivity.
  cbn [negb]. now rewrite IH.
Qed.

(** What a run of the alert script prints, apart from the line that says
    there is nothing new: one alert line for each row it reports. *)
Lemma check_prints_reported (fs : files) :
  consistent fs ->
  alerts_in (lines_of (snd (check_for_new_articles (data_db fs)
                              (alert_state fs))))
  = map alert_line (reported fs).
Proof.
  intros C. destruct (consistent_rowid _ C) as (R & _ & _).
  unfold watermark in R. unfold reported.
  destruct (data_db fs) as [s|]; [|reflexivity].
  rewrite (check_for_new_articles_spec _ _ R). unfold select_new.
  destruct R as [L1 L2]. apply Z.leb_le in L1, L2. rewrite L1, L2.
  cbn [andb]. fold (newer_than (get_last_alerted_id (alert_state fs)) (rows s)).
  destruct (order_by_id
              (newer_than (get_last_alerted_id (alert_state fs)) (rows s)))
    as [|r rs]; [reflexivity|].
  cbn [snd lines_of]. rewrite <- (map_map _ alert_line).
  apply alerts_in_alert_lines.
Qed.

Lemma transcript_spec (ops : list op) : forall fs,
  consistent fs ->
  alerts_in (transcript ops fs) = map alert_line (all_reported ops fs).
Proof.
  induction ops as [|o ops IH]; intros fs C; [reflexivity|].
  destruct o as [w url|]; cbn [transcript all_reported].
  - apply IH. now apply step_ingest.
  - unfold alerts_in in *. rewrite filter_app, map_app.
    rewrite (IH _ (proj1 (step_alert fs C))).
    f_equal. apply (check_prints_reported fs C).
Qed.

End Transcript.

(** X15. Starting from no database and no state file and running the two
    scripts in any order and number: apart from the line that says there
    is nothing new, the lines the alert script prints are one alert line
    per reported row, no id is reported twice, and the ids reported so far
    are the ids of the table that are not above the id in the state file;
    one more run of the alert script brings the alert lines printed to one
    for every id of the table, in ascending order. *)
Theorem each_article_reported_once (ops : list Alert.op) :
  alerts_in (transcript ops fresh)
  = map Alert.alert_line (Alert.all_reported ops fresh)
  /\ NoDup (map fst (Alert.all_reported ops fresh))
  /\ map fst (Alert.all_reported ops fresh)
     = already_reported (Alert.run_ops ops fresh)
  /\ alerts_in (transcript (ops ++ [Alert.RunAlert]) fresh)
     = map Alert.alert_line
         (Alert.all_reported (ops ++ [Alert.RunAlert]) fresh)
  /\ map fst (Alert.all_reported (ops ++ [Alert.RunAlert]) fresh)
     = ids (Alert.data_db (Alert.run_ops ops fresh)).
Proof.
  pose proof (all_reported_spec ops fresh fresh_consistent) as E.
  change (already_reported fresh) with (@nil Z) in E. cbn [app] in E.
  pose proof (run_ops_consistent ops fresh fresh_consistent) as C.
  split; [apply (transcript_spec _ _ fresh_consistent)|].
  split; [|split; [|split]].
  - rewrite <- E. apply NoDup_filter, StronglySorted_lt_NoDup.
    apply (consistent_rowid _ C).
  - now rewrite E.
  - apply (transcript_spec _ _ fresh_consistent).
  - pose proof (all_reported_spec (ops ++ [Alert.RunAlert]) fresh
                  fresh_consistent) as E2.
    change (already_reported fresh) with (@nil Z) in E2. cbn [app] in E2.
    rewrite <- E2, run_ops_app. cbn [Alert.run_ops].
    apply (step_alert _ C).
Qed.

(** X16. A state file that holds an integer outside the 64-bit range
    blocks the alert script: on a database that holds the table the run
    ends with [OverflowError], prints nothing and leaves the file as it
    is, so every later run ends the same way. *)
Theorem oversized_state_blocks_alerts
    (s : Sqlite.store) (f : Alert.state_file) :
  ~ is_rowid (Alert.get_last_alerted_id f) ->
  Alert.check_for_new_articles (Some s) f
  = (f, Alert.Raised OverflowError).
Proof.
  intros H. unfold Alert.check_for_new_articles, Alert.select_new.
  destruct ((Sqlite.MIN_ROWID <=? Alert.get_last_alerted_id f)%Z
            && (Alert.get_last_alerted_id f <=? Sqlite.MAX_ROWID)%Z) eqn:B;
    [|reflexivity].
  exfalso. apply H. apply andb_true_iff in B as [B1 B2].
  split; now apply Z.leb_le.
Qed.

Lemma oversized_state_blocks_alerts_witness :
  Alert.check_for_new_articles (Some Sample.filled)
    (Some "9223372036854775808")
  = (Some "9223372036854775808", Alert.Raised OverflowError).
Proof.
  apply (oversized_state_blocks_alerts Sample.filled
           (Some "9223372036854775808")).
  intros [_ H]. vm_compute in H. now apply H.
Defined.

Section MainAlone.
Import Sqlite Ingest.
Local Open Scope list_scope.

(** The first row of the table gets id 1. *)
Lemma save_article_first (w : env) (u t p : string) :
  save_article w (Some empty_store) u t p
  = Ok (Some (mkStore [(1%Z, u, t, p, Clock.strftime_YmdHMS (utcnow_save w))]
                      1)).
Proof. reflexivity. Qed.

(** Before any run has returned the database is absent or holds the empty
    table with nothing drawn from the sequence. *)
Lemma main_first_success (w : env) (db db' : database) (msg : string) :
  db = None \/ db = Some empty_store ->
  main w db = (db', Ok msg) ->
  one_record (Some w) db'.
Proof.
  intros D M. unfold main, ingest in M.
  destruct (fetch_article w ARTICLE_URL) as [[t p]|e] eqn:F; [|discriminate].
  assert (Ei : init_db db = Some empty_store) by (destruct D; now subst).
  rewrite Ei, save_article_first in M.
  apply (f_equal fst) in M. cbn [fst] in M. subst db'.
  exists t, p. split; [exact F | reflexivity].
Qed.

Lemma main_step_one_record (w : env) (db : database) (last : option env) :
  one_record last db ->
  (last = None -> db = None \/ db = Some empty_store) ->
  one_record (if is_ok (snd (main w db)) then Some w else last)
             (fst (main w db))
  /\ ((if is_ok (snd (main w db)) then Some w else last) = None ->
      fst (main w db) = None \/ fst (main w db) = Some empty_store).
Proof.
  intros O D. destruct (main w db) as [db' [msg|e]] eqn:M; cbn [fst snd is_ok].
  - split; [|discriminate]. destruct last as [w0|].
    + destruct O as (t0 & p0 & F0 & R0). unfold main in M.
      destruct (ingest_ok_rows _ _ _ _ _ M)
        as (t & p & v & F & _ & [(pre & r & post & E1 & E2 & _ & E4)
                                | (Nin & _ & _)]).
      * exists t, p. split; [exact F|]. rewrite E4. rewrite R0 in E1.
        destruct pre as [|x pre]; cbn [app] in E1.
        -- injection E1 as <- <-. reflexivity.
        -- injection E1 as _ E1. destruct pre; discriminate.
      * exfalso. apply Nin. unfold urls. rewrite R0. now left.
    + apply (main_first_success w db db' msg (D eq_refl) M).
  - assert (K : snd (ingest w ARTICLE_URL db) = Raise e).
    { unfold main in M. now rewrite M. }
    apply ingest_raise_db in K. unfold main in M. rewrite M in K.
    cbn [fst] in K. subst db'. split.
    + destruct last as [w0|]; unfold one_record in *;
        rewrite records_init_db; exact O.
    + intros L. right. destruct (D L) as [-> | ->]; reflexivity.
Qed.

Lemma run_main_one_record (ws : list env) : forall db last,
  one_record last db ->
  (last = None -> db = None \/ db = Some empty_store) ->
  one_record (last_success ws db last) (run_main ws db).
Proof.
  unfold run_main. induction ws as [|w ws IH]; intros db last O D;
    cbn [fold_left last_success]; [exact O|].
  destruct (main_step_one_record w db last O D) as [O' D'].
  now apply IH.
Qed.

End MainAlone.

(** X17. The script as it is written, run any number of times from no
    database: as long as no run has returned, the table holds no row; once
    a run has returned, the table holds exactly the one row of
    [ARTICLE_URL], with id 1 and with the title, the date and the fetch
    time of the last run that returned. *)
Theorem main_keeps_one_record (ws : list Ingest.env) :
  match last_success ws None None with
  | None => Sqlite.records (run_main ws None) = []
  | Some w =>
      exists title pub_date,
        Ingest.fetch_article w Ingest.ARTICLE_URL = Ok (title, pub_date)
        /\ Sqlite.records (run_main ws None)
           = [(1%Z, Ingest.ARTICLE_URL, title, pub_date,
               Clock.strftime_YmdHMS (Ingest.utcnow_save w))]
  end.
Proof.
  apply (run_main_one_record ws None None); [reflexivity | now left].
Qed.
